(** * Tobit regression (src/tobit.py): a shallow embedding and its properties

    The development follows the layout of the Python module:
    - [split_left_right_censored]    the censoring partitioner,
    - [tobit_neg_log_likelihood]     the objective,
    - [tobit_neg_log_likelihood_der] its analytic gradient,
    - [fit], [predict], [score]      the methods of the class [TobitModel].

    The numeric code is written once, over an interface [Numeric] of the
    arithmetic of a NumPy scalar and an interface [Special] of the library
    functions the module imports (math.log, np.exp, scipy.stats.norm,
    scipy.special.log_ndtr).  It is read at two instances: the real numbers
    (float64 idealised, for the algebraic statements) and IEEE binary64
    (Rocq's primitive floats, for the statements about NaN and infinities).
    Python exceptions are values of [exn]; code that can raise lives in the
    monad [res], code that also mutates [self], warns or prints in [M].

    Frames and series carry the default index 0..n-1.  The least-squares
    solver and the optimizer are parameters of [fit]; what [fit] prints is
    recorded as one event holding the values printed, not their text. *)

From Stdlib Require Import String.
From Stdlib Require Import List ZArith Bool Arith Lia Sorted.
From Stdlib Require Import Reals Lra.
From Stdlib Require Import Floats.
Import ListNotations.

Set Implicit Arguments.

(* ================================================================== *)
(** ** Exceptions and the two monads *)

Inductive exn : Type :=
| ValueError
| IndexError
| TypeError
| AttributeError
| IndexingError
| UnboundLocalError
| ExternalError.   (* raised inside a collaborator (sklearn, scipy.optimize) *)

Definition res (A : Type) : Type := (exn + A)%type.

Definition raise {A : Type} (e : exn) : res A := inl e.

(** State and exceptions: a computation reads a state, and gives back either
    an exception or a value, with the state as it was left. *)
Definition M (S A : Type) : Type := S -> res A * S.

Class Monad (m : Type -> Type) : Type := {
  ret : forall {A : Type}, A -> m A;
  bind : forall {A B : Type}, m A -> (A -> m B) -> m B
}.

#[export] Instance res_monad : Monad res := {
  ret := fun A a => inr a;
  bind := fun A B c k => match c with inl e => inl e | inr a => k a end
}.

#[export] Instance M_monad (S : Type) : Monad (M S) := {
  ret := fun A a s => (inr a, s);
  bind := fun A B c k s =>
            match c s with
            | (inl e, s') => (inl e, s')
            | (inr a, s') => k a s'
            end
}.

Declare Scope monad_scope.
Delimit Scope monad_scope with monad.
Notation "x <- c ;; k" := (bind c (fun x => k))
  (at level 61, c at next level, right associativity) : monad_scope.
Notation "' pat <- c ;; k" := (bind c (fun x => match x with pat => k end))
  (at level 61, pat pattern, c at next level, right associativity) : monad_scope.
Notation "c ;;; k" := (bind c (fun _ => k))
  (at level 61, right associativity) : monad_scope.
Open Scope monad_scope.

(** A pure computation that may raise, run inside [M]. *)
Definition lift_res {S A : Type} (c : res A) : M S A := fun s => (c, s).

Definition modify {S : Type} (f : S -> S) : M S unit := fun s => (inr tt, f s).

(* ================================================================== *)
(** ** The scalar interface *)

(** The arithmetic of a float64 scalar as the module uses it. *)
Class Numeric (T : Type) : Type := {
  zero : T;
  one : T;
  add : T -> T -> T;
  sub : T -> T -> T;
  mul : T -> T -> T;
  div : T -> T -> T;           (* NumPy division: no exception on a zero divisor *)
  neg : T -> T;
  ltb : T -> T -> bool;
  leb : T -> T -> bool;
  absv : T -> T;               (* np.abs *)
  sqrtv : T -> T;              (* np.sqrt: no exception on a negative argument *)
  of_nat : nat -> T;
  isnan : T -> bool;           (* np.isnan *)
  resolution : T;              (* np.finfo('float').resolution, 1e-15 *)
  c1_96 : T                    (* the literal 1.96 *)
}.

(** The library functions: total on the scalar type; [math_log] below adds
    the domain error of math.log. *)
Class Special (T : Type) : Type := {
  ln : T -> T;                 (* math.log, where it is defined *)
  np_exp : T -> T;             (* np.exp *)
  norm_logpdf : T -> T;        (* scipy.stats.norm.logpdf *)
  norm_logcdf : T -> T;        (* scipy.stats.norm.logcdf *)
  log_ndtr : T -> T;           (* scipy.special.log_ndtr *)
  norm_cdf : T -> T;           (* scipy.stats.norm.cdf *)
  round4 : T -> T              (* ndarray.round(4) on one entry *)
}.

Section Generic.

Context {T : Type} {NT : Numeric T} {ST : Special T}.

(** Python's [max(a, b)] on two arguments: [b] only when [b > a]. *)
Definition pymax (a b : T) : T := if ltb a b then b else a.

(** [math.log]: ValueError ("math domain error") on an argument [<= 0]. *)
Definition math_log (v : T) : res T :=
  if leb v zero then raise ValueError else ret (ln v).

(* ------------------------------------------------------------------ *)
(** *** NumPy arrays *)

(** A one-dimensional array is a list; a two-dimensional array keeps its
    number of columns, which an array without rows still has. *)
Record ndarray2 : Type := mk_ndarray2 {
  ncols : nat;
  rows : list (list T)
}.

(** What [np.squeeze] gives on a one-dimensional array: an array of one
    entry becomes zero-dimensional, any other is returned as it is. *)
Inductive squeezed : Type :=
| Arr0 (v : T)
| Arr1 (l : list T).

Definition np_squeeze (l : list T) : squeezed :=
  match l with
  | [v] => Arr0 v
  | _ => Arr1 l
  end.

(** The entries of a squeezed array, in order ([np.ravel]). *)
Definition entries (a : squeezed) : list T :=
  match a with
  | Arr0 v => [v]
  | Arr1 l => l
  end.

(** [a.sum()]: the entries added up from the left.  (NumPy's own order of
    summation plays no part in what follows: over the reals the order is
    immaterial, and over binary64 only sums of one entry are evaluated.) *)
Definition np_sum (l : list T) : T := fold_left add l zero.

Fixpoint zip_with (f : T -> T -> T) (u v : list T) : list T :=
  match u, v with
  | a :: u', b :: v' => f a b :: zip_with f u' v'
  | _, _ => []
  end.

(** Elementwise operation on two one-dimensional arrays, with NumPy's
    broadcasting: equal lengths, or one side of length one. *)
Definition broadcast (f : T -> T -> T) (u v : list T) : res (list T) :=
  if Nat.eqb (length u) (length v) then ret (zip_with f u v)
  else match u, v with
       | [a], _ => ret (map (f a) v)
       | _, [b] => ret (map (fun a => f a b) u)
       | _, _ => raise ValueError
       end.

(** [a - v] and [v - a] for a squeezed array [a] and a 1-D array [v]. *)
Definition sq_sub_l (a : squeezed) (v : list T) : res (list T) :=
  match a with
  | Arr0 y => ret (map (fun d => sub y d) v)
  | Arr1 l => broadcast sub l v
  end.

Definition sq_sub_r (v : list T) (a : squeezed) : res (list T) :=
  match a with
  | Arr0 y => ret (map (fun d => sub d y) v)
  | Arr1 l => broadcast sub v l
  end.

(** Inner product of two 1-D arrays of one length. *)
Definition inner (u v : list T) : T := np_sum (zip_with mul u v).

(** [np.dot(X, b)], [X] of shape (n, k) and [b] of shape (k',):
    ValueError unless k = k'. *)
Definition dot_mv (X : ndarray2) (b : list T) : res (list T) :=
  if Nat.eqb (ncols X) (length b)
  then ret (map (fun row => inner row b) (rows X))
  else raise ValueError.

(** [np.dot(v, X)], [v] of shape (n',) and [X] of shape (n, k):
    ValueError unless n' = n; the result has shape (k,), each entry the
    sum over the rows. *)
Definition dot_vm (v : list T) (X : ndarray2) : res (list T) :=
  if Nat.eqb (length v) (length (rows X))
  then ret (fold_left (fun acc '(c, row) => zip_with add acc (map (mul c) row))
                      (combine v (rows X)) (repeat zero (ncols X)))
  else raise ValueError.

(** [X / s] for a scalar [s]. *)
Definition mat_div (X : ndarray2) (s : T) : ndarray2 :=
  mk_ndarray2 (ncols X) (map (map (fun a => div a s)) (rows X)).

(** In-place [u += v] and [u -= v] on a 1-D array [u]: [v] must broadcast
    to the shape of [u]. *)
Definition iadd (u v : list T) : res (list T) :=
  if Nat.eqb (length u) (length v) then ret (zip_with add u v)
  else match v with
       | [b] => ret (map (fun a => add a b) u)
       | _ => raise ValueError
       end.

Definition isub (u v : list T) : res (list T) :=
  if Nat.eqb (length u) (length v) then ret (zip_with sub u v)
  else match v with
       | [b] => ret (map (fun a => sub a b) u)
       | _ => raise ValueError
       end.

(** [y - a] for the values of a Series and a 1-D array: NumPy's broadcasting
    on the values, and the result keeps the index of the Series, so that it
    must come out with the length of [y]. *)
Definition series_sub (y a : list T) : res (list T) :=
  if Nat.eqb (length y) (length a) then ret (zip_with sub y a)
  else match a with
       | [b] => ret (map (fun v => sub v b) y)
       | _ => raise ValueError
       end.

(** [params[:-1]] and [params[-1]]. *)
Definition but_last (l : list T) : list T := removelast l.

Definition last_entry (l : list T) : res T :=
  match l with
  | [] => raise IndexError
  | a :: l' => ret (last l' a)
  end.

(** [l[i]] for an index [i >= 0]. *)
Definition index (l : list T) (i : nat) : res T :=
  match nth_error l i with
  | Some a => ret a
  | None => raise IndexError
  end.

(** The three entries of [xs] or [ys]: unpacking raises ValueError on any
    other length. *)
Definition unpack3 {A : Type} (l : list A) : res (A * A * A) :=
  match l with
  | [a; b; c] => ret (a, b, c)
  | _ => raise ValueError
  end.

(* ------------------------------------------------------------------ *)
(** *** pandas: frames and series on the default index 0..n-1 *)

Record DataFrame : Type := mk_DataFrame {
  columns : list string;
  data : list (list T)          (* the rows *)
}.

Record Series (A : Type) : Type := mk_Series {
  name : string;
  svalues : list A
}.

(** [df.values] *)
Definition values (df : DataFrame) : ndarray2 :=
  mk_ndarray2 (length (columns df)) (data df).

(** What a run leaves behind besides its result. *)
Inductive event : Type :=
| Warn (msg : string)                         (* warnings.warn / a pandas UserWarning *)
| CallMinimize (params0 : list T)             (* scipy.optimize.minimize was entered *)
| PrintResult                                 (* print(result) *)
| PrintReport (summary : list (string * list T)) (index : list string)
              (dep_variable : string) (n_obs n_cens n_uncens : Z)
              (sigma loglik : T) (n_iter : nat).

Definition warn (msg : string) : M (list event) unit :=
  modify (fun log => log ++ [Warn msg]).

(** [cens.value_counts()]: the distinct values with their counts.  The
    module only asks whether a value is among the labels. *)
Fixpoint bump (v : Z) (counts : list (Z * nat)) : list (Z * nat) :=
  match counts with
  | [] => [(v, 1)]
  | (k, n) :: rest => if Z.eqb k v then (k, S n) :: rest else (k, n) :: bump v rest
  end.

Definition value_counts (cens : list Z) : list (Z * nat) :=
  fold_left (fun counts v => bump v counts) cens [].

(** [value in counts] *)
Definition in_counts (v : Z) (counts : list (Z * nat)) : bool :=
  existsb (fun kn => Z.eqb (fst kn) v) counts.

(** [cens == value] *)
Definition series_eq (cens : list Z) (value : Z) : list bool :=
  map (fun c => Z.eqb c value) cens.

(** The rows a boolean mask keeps, in their order. *)
Fixpoint select {A : Type} (mask : list bool) (l : list A) : list A :=
  match mask, l with
  | m :: mask', a :: l' => if m then a :: select mask' l' else select mask' l'
  | _, _ => []
  end.

(** [y[split]] for a boolean series [split]: the key is reindexed to the
    index of [y]; IndexingError when it lacks one of its labels. *)
Definition series_getitem {A : Type} (y : Series A) (split : list bool)
  : res (Series A) :=
  if Nat.ltb (length split) (length (svalues y)) then raise IndexingError
  else ret (mk_Series (name y) (select split (svalues y))).

(** [x[split]] on a frame: the same, after a UserWarning when the key's
    index is not the frame's. *)
Definition frame_getitem (x : DataFrame) (split : list bool)
  : M (list event) DataFrame :=
  (if Nat.eqb (length split) (length (data x)) then ret tt
   else warn "Boolean Series key will be reindexed to match DataFrame index.") ;;;
  if Nat.ltb (length split) (length (data x)) then lift_res (raise IndexingError)
  else ret (mk_DataFrame (columns x) (select split (data x))).

(** [x_copy.insert(0, name, value)]: ValueError when the column exists. *)
Definition frame_insert0 (x : DataFrame) (col : string) (v : T) : res DataFrame :=
  if existsb (String.eqb col) (columns x) then raise ValueError
  else ret (mk_DataFrame (col :: columns x) (map (cons v) (data x))).

(** [x_copy.scale(...)]: a frame has no attribute [scale]; the lookup falls
    back to the column of that name, which is a Series and cannot be called. *)
Definition frame_call_scale (x : DataFrame) : res unit :=
  if existsb (String.eqb "scale") (columns x) then raise TypeError
  else raise AttributeError.

(* ------------------------------------------------------------------ *)
(** *** split_left_right_censored (tobit.py, lines 11-27) *)

Definition groups : Type := (list (option ndarray2) * list (option squeezed))%type.

(** One turn of [for value in [-1, 0, 1]]. *)
Definition split_body (x : DataFrame) (y : Series T) (cens : list Z)
    (counts : list (Z * nat)) (acc : groups) (value : Z)
  : M (list event) groups :=
  ' (y_split, x_split) <-
      (if in_counts value counts then
         let split := series_eq cens value in
         ysel <- lift_res (series_getitem y split) ;;
         let y_split := np_squeeze (svalues ysel) in
         xsel <- frame_getitem x split ;;
         let x_split := values xsel in
         ret (Some y_split, Some x_split)
       else ret (None, None)) ;;
  ret (fst acc ++ [x_split], snd acc ++ [y_split]).

Fixpoint for_each {S A B : Type} (body : A -> B -> M S A) (l : list B) (a : A)
  : M S A :=
  match l with
  | [] => ret a
  | v :: l' => a' <- body a v ;; for_each body l' a'
  end.

Definition split_left_right_censored (x : DataFrame) (y : Series T) (cens : list Z)
  : M (list event) groups :=
  let counts := value_counts cens in
  (if negb (in_counts (-1) counts) && negb (in_counts 1 counts)
   then warn "No censored observations; use regression methods for uncensored data"
   else ret tt) ;;;
  for_each (split_body x y cens counts) [(-1)%Z; 0%Z; 1%Z] ([], []).

(* ------------------------------------------------------------------ *)
(** *** tobit_neg_log_likelihood (tobit.py, lines 29-63) *)

(** A group's features where its responses are present: NumPy's product
    with [None] is a TypeError. *)
Definition need {A : Type} (o : option A) : res A :=
  match o with
  | Some a => ret a
  | None => raise TypeError
  end.

Definition tobit_neg_log_likelihood (xs : list (option ndarray2))
    (ys : list (option squeezed)) (params : list T) : res T :=
  ' (x_left, x_mid, x_right) <- unpack3 xs ;;
  ' (y_left, y_mid, y_right) <- unpack3 ys ;;
  let b := but_last params in
  s <- last_entry params ;;
  let to_cat := [] in
  let cens := false in
  ' (to_cat, cens) <-
      match y_left with
      | Some y_left =>
          X <- need x_left ;;
          d <- dot_mv X b ;;
          left <- sq_sub_l y_left d ;;
          ret (to_cat ++ [left], true)
      | None => ret (to_cat, cens)
      end ;;
  ' (to_cat, cens) <-
      match y_right with
      | Some y_right =>
          X <- need x_right ;;
          d <- dot_mv X b ;;
          right <- sq_sub_r d y_right ;;
          ret (to_cat ++ [right], true)
      | None => ret (to_cat, cens)
      end ;;
  let cens_sum :=
    if (cens : bool) then
      let concat_stats := map (fun v => div v s) (concat to_cat) in
      let log_cum_norm := map norm_logcdf concat_stats in
      np_sum log_cum_norm
    else zero in
  mid_sum <-
      match y_mid with
      | Some y_mid =>
          X <- need x_mid ;;
          d <- dot_mv X b ;;
          r <- sq_sub_l y_mid d ;;
          let mid_stats := map (fun v => div v s) r in
          lg <- math_log (pymax resolution s) ;;
          let mid := map (fun z => sub (norm_logpdf z) lg) mid_stats in
          ret (np_sum mid)
      | None => ret zero
      end ;;
  let loglik := add cens_sum mid_sum in
  ret (neg loglik).

(* ------------------------------------------------------------------ *)
(** *** tobit_neg_log_likelihood_der (tobit.py, lines 65-107) *)

Definition tobit_neg_log_likelihood_der (xs : list (option ndarray2))
    (ys : list (option squeezed)) (params : list T) : res (list T) :=
  ' (x_left, x_mid, x_right) <- unpack3 xs ;;
  ' (y_left, y_mid, y_right) <- unpack3 ys ;;
  let b := but_last params in
  s <- last_entry params ;;
  let beta_jac := repeat zero (length b) in
  let sigma_jac := zero in
  ' (beta_jac, sigma_jac) <-
      match y_left with
      | Some y_left =>
          X <- need x_left ;;
          d <- dot_mv X b ;;
          r <- sq_sub_l y_left d ;;
          let left_stats := map (fun v => div v s) r in
          let l_pdf := map norm_logpdf left_stats in
          let l_cdf := map log_ndtr left_stats in
          let left_frac := map np_exp (zip_with sub l_pdf l_cdf) in
          beta_left <- dot_vm left_frac (mat_div X s) ;;
          beta_jac <- isub beta_jac beta_left ;;
          let left_sigma := inner left_frac left_stats in
          ret (beta_jac, sub sigma_jac left_sigma)
      | None => ret (beta_jac, sigma_jac)
      end ;;
  ' (beta_jac, sigma_jac) <-
      match y_right with
      | Some y_right =>
          X <- need x_right ;;
          d <- dot_mv X b ;;
          r <- sq_sub_r d y_right ;;
          let right_stats := map (fun v => div v s) r in
          let r_pdf := map norm_logpdf right_stats in
          let r_cdf := map log_ndtr right_stats in
          let right_frac := map np_exp (zip_with sub r_pdf r_cdf) in
          beta_right <- dot_vm right_frac (mat_div X s) ;;
          beta_jac <- iadd beta_jac beta_right ;;
          let right_sigma := inner right_frac right_stats in
          ret (beta_jac, sub sigma_jac right_sigma)
      | None => ret (beta_jac, sigma_jac)
      end ;;
  ' (beta_jac, sigma_jac) <-
      match y_mid with
      | Some y_mid =>
          X <- need x_mid ;;
          d <- dot_mv X b ;;
          r <- sq_sub_l y_mid d ;;
          let mid_stats := map (fun v => div v s) r in
          beta_mid <- dot_vm mid_stats (mat_div X s) ;;
          beta_jac <- iadd beta_jac beta_mid ;;
          let mid_sigma := np_sum (map (fun z => sub (mul z z) one) mid_stats) in
          ret (beta_jac, add sigma_jac mid_sigma)
      | None => ret (beta_jac, sigma_jac)
      end ;;
  let combo_jac := beta_jac ++ [div sigma_jac s] in
  ret (map neg combo_jac).

(* ------------------------------------------------------------------ *)
(** *** class TobitModel (tobit.py, lines 109-200) *)

(** The attributes of an instance; [None] until [fit] assigns them. *)
Record TobitModel : Type := mk_TobitModel {
  fit_intercept : bool;
  ols_coef_ : option (list T);
  ols_intercept : option T;
  coef_ : option (list T);
  intercept_ : option T;
  sigma_ : option T
}.

(** [TobitModel.__init__] *)
Definition init (fit_intercept : bool) : TobitModel :=
  mk_TobitModel fit_intercept None None None None None.

(** What [scipy.optimize.minimize] returns, as far as [fit] reads it. *)
Record OptimizeResult : Type := mk_OptimizeResult {
  res_x : list T;
  res_fun : T;
  res_nit : nat;
  res_hess_inv : ndarray2
}.

(** The collaborators of [fit]: the least-squares solver of scikit-learn and
    the optimizer of SciPy.  Either may raise. *)
Record Collaborators : Type := mk_Collaborators {
  (* LinearRegression(fit_intercept=False).fit(X, y).coef_ *)
  lr_fit : DataFrame -> Series T -> res (list T);
  (* init_reg.predict(X), for the coefficients fitted *)
  lr_predict : list T -> DataFrame -> res (list T);
  (* minimize(fun, params0, method='BFGS', jac=jac, options={'disp': verbose}) *)
  minimize : (list T -> res T) -> (list T -> res (list T)) -> list T -> bool
             -> res OptimizeResult
}.

(** The state a call of a method runs in: the instance and what was
    warned and printed so far. *)
Record world : Type := mk_world {
  self : TobitModel;
  out : list event
}.

Definition gets {A : Type} (f : TobitModel -> A) : M world A :=
  fun w => (inr (f (self w)), w).

Definition assign (f : TobitModel -> TobitModel) : M world unit :=
  modify (fun w => mk_world (f (self w)) (out w)).

Definition emit (e : event) : M world unit :=
  modify (fun w => mk_world (self w) (out w ++ [e])).

(** A module-level function run from a method: it sees the log only. *)
Definition with_log {A : Type} (c : M (list event) A) : M world A :=
  fun w => let '(r, log) := c (out w) in (r, mk_world (self w) log).

Definition set_ols_coef_ (v : list T) (me : TobitModel) : TobitModel :=
  mk_TobitModel (fit_intercept me) (Some v) (ols_intercept me) (coef_ me)
                (intercept_ me) (sigma_ me).
Definition set_ols_intercept (v : T) (me : TobitModel) : TobitModel :=
  mk_TobitModel (fit_intercept me) (ols_coef_ me) (Some v) (coef_ me)
                (intercept_ me) (sigma_ me).
Definition set_coef_ (v : list T) (me : TobitModel) : TobitModel :=
  mk_TobitModel (fit_intercept me) (ols_coef_ me) (ols_intercept me) (Some v)
                (intercept_ me) (sigma_ me).
Definition set_intercept_ (v : T) (me : TobitModel) : TobitModel :=
  mk_TobitModel (fit_intercept me) (ols_coef_ me) (ols_intercept me) (coef_ me)
                (Some v) (sigma_ me).
Definition set_sigma_ (v : T) (me : TobitModel) : TobitModel :=
  mk_TobitModel (fit_intercept me) (ols_coef_ me) (ols_intercept me) (coef_ me)
                (intercept_ me) (Some v).

(** [np.var] of a pandas Series (Series.var with ddof = 0): missing values
    are skipped, the squared deviations from the mean are averaged. *)
Definition np_var (l : list T) : T :=
  let kept := filter (fun v => negb (isnan v)) l in
  let count := of_nat (length kept) in
  let avg := div (np_sum kept) count in
  div (np_sum (map (fun v => mul (sub avg v) (sub avg v)) kept)) count.

(** [np.diag] of a two-dimensional array: its main diagonal. *)
Fixpoint diag_from (i : nat) (rs : list (list T)) : list T :=
  match rs with
  | [] => []
  | r :: rs' =>
      match nth_error r i with
      | Some a => a :: diag_from (S i) rs'
      | None => []
      end
  end.

Definition np_diag (H : ndarray2) : list T := diag_from 0 (rows H).

(** [np.sqrt(np.diag(hessian_inv))] (tobit.py, line 152) *)
Definition std_errors (hessian_inv : ndarray2) : list T :=
  map sqrtv (np_diag hessian_inv).

(** [a[1:-1]] *)
Definition inner_slice (l : list T) : list T := but_last (tl l).

(** pandas on one column of [pd.DataFrame(dict, index=index)]: a
    one-dimensional array of one entry is repeated to the length of the
    index ([1 == len(arr) != len(index)]); any other is taken as it is. *)
Definition maybe_repeat (arr : list T) (index : list string) : list T :=
  match arr with
  | [a] => if Nat.eqb 1 (length index) then arr else repeat a (length index)
  | _ => arr
  end.

(** [pd.DataFrame(dict, index=index)]: every column goes through
    [maybe_repeat]; ValueError unless each then has the length of the
    index. *)
Definition make_summary (cols : list (string * list T)) (index : list string)
  : res (list (string * list T)) :=
  let cols := map (fun c => (fst c, maybe_repeat (snd c) index)) cols in
  if forallb (fun c => Nat.eqb (length (snd c)) (length index)) cols
  then ret cols else raise ValueError.

(** A local variable that a branch may have left unbound. *)
Definition local {A : Type} (o : option A) : res A :=
  match o with
  | Some a => ret a
  | None => raise UnboundLocalError
  end.

Definition count_true (l : list bool) : nat := length (filter (fun b => b) l).

Definition fit (ext : Collaborators) (x : DataFrame) (y : Series T)
    (cens : list Z) (verbose : bool) : M world unit :=
  let x_copy := x in
  fi <- gets fit_intercept ;;
  x_copy <- lift_res
      (if (fi : bool) then frame_insert0 x_copy "intercept" one
       else frame_call_scale x_copy ;;; ret x_copy) ;;
  b0 <- lift_res (lr_fit ext x_copy y) ;;
  y_pred <- lift_res (lr_predict ext b0 x_copy) ;;
  resid <- lift_res (series_sub (svalues y) y_pred) ;;
  let resid_var := np_var resid in
  let s0 := sqrtv resid_var in
  let params0 := b0 ++ [s0] in
  ' (xs, ys) <- with_log (split_left_right_censored x_copy y cens) ;;
  emit (CallMinimize params0) ;;;
  result <- lift_res
      (minimize ext (fun params => tobit_neg_log_likelihood xs ys params)
                    (fun params => tobit_neg_log_likelihood_der xs ys params)
                    params0 verbose) ;;
  (if verbose then emit PrintResult else ret tt) ;;;
  assign (set_ols_coef_ (tl b0)) ;;;
  b0_0 <- lift_res (index b0 0) ;;
  assign (set_ols_intercept b0_0) ;;;
  fi <- gets fit_intercept ;;
  (if (fi : bool) then
     x_1 <- lift_res (index (res_x result) 1) ;;
     assign (set_intercept_ x_1) ;;;
     assign (set_coef_ (inner_slice (res_x result)))
   else
     assign (set_coef_ (but_last (res_x result))) ;;;
     assign (set_intercept_ zero)) ;;;
  x_last <- lift_res (last_entry (res_x result)) ;;
  assign (set_sigma_ x_last) ;;;
  (* standard errors, z-values and p-values *)
  let hessian_inv := res_hess_inv result in
  let std_errors := std_errors hessian_inv in
  fi <- gets fit_intercept ;;
  ' (coef_std_errors, intercept_std_error) <- lift_res
      (if (fi : bool) then
         let coef_std_errors := inner_slice std_errors in
         se_0 <- index std_errors 0 ;;
         ret (coef_std_errors, Some se_0)
       else ret (but_last std_errors, None)) ;;
  self_coef <- gets coef_ ;;
  coef <- lift_res (need self_coef) ;;
  z_values <- lift_res (broadcast div coef coef_std_errors) ;;
  let p_value := fun z => mul (of_nat 2) (sub one (norm_cdf (absv z))) in
  let p_values := map p_value z_values in
  (* the summary table *)
  self_intercept <- gets intercept_ ;;
  icpt <- lift_res (need self_intercept) ;;
  ise <- lift_res (local intercept_std_error) ;;
  lo <- lift_res (broadcast sub coef (map (mul c1_96) coef_std_errors)) ;;
  hi <- lift_res (broadcast add coef (map (mul c1_96) coef_std_errors)) ;;
  summary_df <- lift_res (make_summary
      [ ("coef", icpt :: coef);
        ("std err", ise :: coef_std_errors);
        ("z", div icpt ise :: z_values);
        ("P>|z|", map round4 (p_value (div icpt ise) :: p_values));
        ("[0.025", sub icpt (mul c1_96 ise) :: lo);
        ("0.975]", add icpt (mul c1_96 ise) :: hi) ]%string
      ("const"%string :: columns x)) ;;
  let uncensored := count_true (series_eq cens 0) in
  emit (PrintReport summary_df ("const"%string :: columns x) (name y)
          (Z.of_nat (length (svalues y)))
          (Z.of_nat (length (svalues y)) - Z.of_nat uncensored)%Z
          (Z.of_nat uncensored)
          x_last (res_fun result) (res_nit result)).

(** [predict]: the intercept added to [np.dot(x, self.coef_)]. *)
Definition predict (me : TobitModel) (x : ndarray2) : res (list T) :=
  coef <- need (coef_ me) ;;
  d <- dot_mv x coef ;;
  icpt <- need (intercept_ me) ;;
  ret (map (fun v => add icpt v) d).

(** [sklearn.metrics.mean_absolute_error] on two 1-D arrays: ValueError on
    lengths that differ or on no sample. *)
Definition mean_absolute_error (y_true y_pred : list T) : res T :=
  if negb (Nat.eqb (length y_true) (length y_pred)) then raise ValueError
  else if Nat.eqb (length y_true) 0 then raise ValueError
  else ret (div (np_sum (map absv (zip_with sub y_pred y_true)))
                (of_nat (length y_true))).

(** [score]; [None] for [scoring_function] stands for the default argument. *)
Definition score (me : TobitModel) (x : ndarray2) (y : list T)
    (scoring_function : option (list T -> list T -> res T)) : res T :=
  let scoring_function :=
    match scoring_function with
    | Some f => f
    | None => mean_absolute_error
    end in
  coef <- need (coef_ me) ;;
  y_pred <- dot_mv x coef ;;
  scoring_function y y_pred.

End Generic.

Arguments ndarray2 T : clear implicits.
Arguments squeezed T : clear implicits.
Arguments DataFrame T : clear implicits.
Arguments event T : clear implicits.
Arguments groups T : clear implicits.
Arguments TobitModel T : clear implicits.
Arguments OptimizeResult T : clear implicits.
Arguments Collaborators T : clear implicits.
Arguments world T : clear implicits.

(* ================================================================== *)
(** ** The two readings of the scalar interface *)

(** *** Real numbers: float64 idealised *)

Module RealModel.

Local Open Scope R_scope.

(** Division by zero lies outside this reading: [Rdiv a 0] is a real number,
    where NumPy gives an infinity or NaN.  What the code does at a zero scale
    is stated over binary64. *)
Definition Rltb (a b : R) : bool := if Rlt_dec a b then true else false.
Definition Rleb (a b : R) : bool := if Rle_dec a b then true else false.

#[export] Instance R_numeric : Numeric R := {
  zero := 0;
  one := 1;
  add := Rplus;
  sub := Rminus;
  mul := Rmult;
  div := Rdiv;
  neg := Ropp;
  ltb := Rltb;
  leb := Rleb;
  absv := Rabs;
  sqrtv := R_sqrt.sqrt;
  of_nat := INR;
  isnan := fun _ => false;
  resolution := 1 / 10 ^ 15;
  c1_96 := 196 / 100
}.

(** The standard normal density, and its distribution function as one half
    plus the integral of the density from 0 to [z]. *)
Definition phi (t : R) : R := exp (- (t * t) / 2) / R_sqrt.sqrt (2 * PI).

Definition phi_integrable (a b : R) : Riemann_integrable phi a b.
Proof.
  assert (Hcont : continuity phi) by (unfold phi; reg).
  destruct (Rle_dec a b) as [Hab | Hab].
  - apply continuity_implies_RiemannInt; [exact Hab | intros; apply Hcont].
  - apply RiemannInt_P1, continuity_implies_RiemannInt;
      [lra | intros; apply Hcont].
Defined.

Definition Phi (z : R) : R := / 2 + RiemannInt (phi_integrable 0 z).

(** Rounding to the nearest integer, ties to even, as [np.round] does. *)
Definition rint (v : R) : Z :=
  let n := Int_part v in
  let f := frac_part v in
  if Rlt_dec f (/ 2) then n
  else if Rlt_dec (/ 2) f then (n + 1)%Z
  else if Z.even n then n else (n + 1)%Z.

#[export] Instance R_special : Special R := {
  ln := Rpower.ln;
  np_exp := exp;
  norm_logpdf := fun z => - (z * z) / 2 - Rpower.ln (R_sqrt.sqrt (2 * PI));
  norm_logcdf := fun z => Rpower.ln (Phi z);
  log_ndtr := fun z => Rpower.ln (Phi z);
  norm_cdf := Phi;
  round4 := fun v => IZR (rint (v * 10 ^ 4)) / 10 ^ 4
}.

End RealModel.

(** *** IEEE binary64: Rocq's primitive floats *)

Module FloatModel.

Local Open Scope float_scope.

(** Exact for the lengths that occur (below 2^53). *)
Definition float_of_nat (n : nat) : float :=
  PrimFloat.of_uint63 (Uint63.of_Z (Z.of_nat n)).

#[export] Instance float_numeric : Numeric float := {
  zero := 0;
  one := 1;
  add := PrimFloat.add;
  sub := PrimFloat.sub;
  mul := PrimFloat.mul;
  div := PrimFloat.div;
  neg := PrimFloat.opp;
  ltb := PrimFloat.ltb;
  leb := PrimFloat.leb;
  absv := PrimFloat.abs;
  sqrtv := PrimFloat.sqrt;
  of_nat := float_of_nat;
  isnan := PrimFloat.is_nan;
  resolution := 0x1.203af9ee75616p-50;    (* 1e-15 *)
  c1_96 := 0x1.f5c28f5c28f5cp+0           (* 1.96 *)
}.

(** Finite: neither NaN nor an infinity. *)
Definition finite (v : float) : bool := PrimFloat.is_finite v.

End FloatModel.

(* ================================================================== *)
(** ** The partitioner: the groups it is to compute *)

Unset Implicit Arguments.

Section PartitionerSpec.

Context {T : Type}.

(** The positions of the records with status [v], in input order. *)
Fixpoint positions_from (i : nat) (cens : list Z) (v : Z) : list nat :=
  match cens with
  | [] => []
  | c :: cens' =>
      if Z.eqb c v then i :: positions_from (S i) cens' v
      else positions_from (S i) cens' v
  end.

Definition positions (cens : list Z) (v : Z) : list nat := positions_from 0 cens v.

(** The rows and the responses a group holds; none for an absent group. *)
Definition group_rows (g : option (ndarray2 T)) : list (list T) :=
  match g with
  | Some X => rows X
  | None => []
  end.

Definition group_resp (g : option (squeezed T)) : list T :=
  match g with
  | Some a => entries a
  | None => []
  end.

Definition row_count (g : option (ndarray2 T)) : nat := length (group_rows g).

(** The group [(xg, yg)] holds exactly the records of [x], [y] at the
    positions [I], in that order, and is [None] when there is none. *)
Definition group_is (x : DataFrame T) (y : Series T) (I : list nat)
    (xg : option (ndarray2 T)) (yg : option (squeezed T)) : Prop :=
  map Some (group_rows xg) = map (nth_error (data x)) I /\
  map Some (group_resp yg) = map (nth_error (svalues y)) I /\
  (I = [] -> xg = None /\ yg = None) /\
  (I <> [] -> xg <> None /\ yg <> None).

(** What the loop computes for one status. *)
Definition x_group (x : DataFrame T) (cens : list Z) (v : Z) : option (ndarray2 T) :=
  if in_counts v (value_counts cens)
  then Some (mk_ndarray2 (length (columns x)) (select (series_eq cens v) (data x)))
  else None.

Definition y_group (y : Series T) (cens : list Z) (v : Z) : option (squeezed T) :=
  if in_counts v (value_counts cens)
  then Some (np_squeeze (select (series_eq cens v) (svalues y)))
  else None.

(** Position [i] lies in exactly one of three position lists. *)
Definition in_exactly_one (i : nat) (A B C : list nat) : Prop :=
  (In i A /\ ~ In i B /\ ~ In i C) \/
  (~ In i A /\ In i B /\ ~ In i C) \/
  (~ In i A /\ ~ In i B /\ In i C).

(** A censoring code of the model: LEFT, NONE or RIGHT. *)
Definition valid_code (c : Z) : Prop := c = (-1)%Z \/ c = 0%Z \/ c = 1%Z.

End PartitionerSpec.

(* ================================================================== *)
(** ** The objective and the gradient on a partitioned dataset *)

Section Residuals.

Context {T : Type} {NT : Numeric T}.

(** The feature rows and the responses of the records with status [v]. *)
Definition rows_of (x : DataFrame T) (cens : list Z) (v : Z) : list (list T) :=
  select (series_eq cens v) (data x).

Definition resp_of (y : Series T) (cens : list Z) (v : Z) : list T :=
  select (series_eq cens v) (svalues y).

(** [y - np.dot(x, b)] and [np.dot(x, b) - y] over the records with status [v]. *)
Definition resid_l (x : DataFrame T) (y : Series T) (cens : list Z)
    (b : list T) (v : Z) : list T :=
  zip_with sub (resp_of y cens v) (map (fun row => inner row b) (rows_of x cens v)).

Definition resid_r (x : DataFrame T) (y : Series T) (cens : list Z)
    (b : list T) (v : Z) : list T :=
  zip_with sub (map (fun row => inner row b) (rows_of x cens v)) (resp_of y cens v).

(** The groups the partitioner computes on frames of one length. *)
Definition partitioned (x : DataFrame T) (y : Series T) (cens : list Z)
  : list (option (ndarray2 T)) * list (option (squeezed T)) :=
  ([x_group x cens (-1); x_group x cens 0; x_group x cens 1],
   [y_group y cens (-1); y_group y cens 0; y_group y cens 1]).

End Residuals.

(* ================================================================== *)
(** ** The likelihood as the specification words it, over the reals *)

Module RealSpec.

Import RealModel.
Local Open Scope R_scope.

Definition Rsum (l : list R) : R := fold_right Rplus 0 l.

(** [x_i . beta] *)
Definition Rdot (u v : list R) : R :=
  Rsum (map (fun p => fst p * snd p) (combine u v)).

(** The observations [(x_i, y_i)] with censoring status [v], in input order. *)
Definition observations (x : DataFrame R) (y : Series R) (cens : list Z) (v : Z)
  : list (list R * R) :=
  select (series_eq cens v) (combine (data x) (svalues y)).

(** The log-likelihood: the sum of log Phi((y_i - x_i.beta)/sigma) over the
    left group, of log Phi((x_i.beta - y_i)/sigma) over the right group and of
    log phi((y_i - x_i.beta)/sigma) - [lsig] over the uncensored group, where
    [lsig] stands for the term "log sigma". *)
Definition loglik_with (lsig : R) (x : DataFrame R) (y : Series R) (cens : list Z)
    (beta : list R) (sigma : R) : R :=
  Rsum (map (fun o => Rpower.ln (Phi ((snd o - Rdot (fst o) beta) / sigma)))
            (observations x y cens (-1)))
  + Rsum (map (fun o => Rpower.ln (Phi ((Rdot (fst o) beta - snd o) / sigma)))
              (observations x y cens 1))
  + Rsum (map (fun o => Rpower.ln (phi ((snd o - Rdot (fst o) beta) / sigma)) - lsig)
              (observations x y cens 0)).

(** As the claim states it: log sigma itself. *)
Definition loglik_claimed (x : DataFrame R) (y : Series R) (cens : list Z)
    (beta : list R) (sigma : R) : R :=
  loglik_with (Rpower.ln sigma) x y cens beta sigma.

(** As the code computes it: sigma floored at the resolution inside the log. *)
Definition loglik_floored (x : DataFrame R) (y : Series R) (cens : list Z)
    (beta : list R) (sigma : R) : R :=
  loglik_with (Rpower.ln (Rmax resolution sigma)) x y cens beta sigma.

(** The gradient as the specification words it (4.3).  The standardized
    residual of an observation in the left or uncensored group, and in the
    right group; the inverse Mills ratio in log-space. *)
Definition z_left (beta : list R) (sigma : R) (o : list R * R) : R :=
  (snd o - Rdot (fst o) beta) / sigma.

Definition z_right (beta : list R) (sigma : R) (o : list R * R) : R :=
  (Rdot (fst o) beta - snd o) / sigma.

Definition ratio (z : R) : R := exp (Rpower.ln (phi z) - Rpower.ln (Phi z)).

(** Entry [j] of the beta part of the gradient of the positive
    log-likelihood: minus the left sum, plus the right sum, plus the
    uncensored sum. *)
Definition beta_entry (x : DataFrame R) (y : Series R) (cens : list Z)
    (beta : list R) (sigma : R) (j : nat) : R :=
  - Rsum (map (fun o => ratio (z_left beta sigma o) * (nth j (fst o) 0 / sigma))
              (observations x y cens (-1)))
  + Rsum (map (fun o => ratio (z_right beta sigma o) * (nth j (fst o) 0 / sigma))
              (observations x y cens 1))
  + Rsum (map (fun o => z_left beta sigma o * (nth j (fst o) 0 / sigma))
              (observations x y cens 0)).

(** The sigma accumulator. *)
Definition sigma_accumulated (x : DataFrame R) (y : Series R) (cens : list Z)
    (beta : list R) (sigma : R) : R :=
  - Rsum (map (fun o => ratio (z_left beta sigma o) * z_left beta sigma o)
              (observations x y cens (-1)))
  - Rsum (map (fun o => ratio (z_right beta sigma o) * z_right beta sigma o)
              (observations x y cens 1))
  + Rsum (map (fun o => z_left beta sigma o * z_left beta sigma o - 1)
              (observations x y cens 0)).

(** The vector returned: the beta entries, then the accumulator divided by
    sigma, the whole negated. *)
Definition gradient_spec (x : DataFrame R) (y : Series R) (cens : list Z)
    (beta : list R) (sigma : R) : list R :=
  map Ropp (map (beta_entry x y cens beta sigma) (seq 0 (length beta))
            ++ [sigma_accumulated x y cens beta sigma / sigma]).

(** Column [j] of [np.dot(v, X)]: the sum over the rows. *)
Definition column_sum (v : list R) (X : list (list R)) (j : nat) : R :=
  Rsum (map (fun cr => fst cr * nth j (snd cr) 0) (combine v X)).

(** A frame is rectangular: every row has one entry per column. *)
Definition rectangular (x : DataFrame R) : Prop :=
  Forall (fun row => length row = length (columns x)) (data x).

(** The sign flip of the data: every response negated, LEFT and RIGHT
    exchanged. *)
Definition negate_responses (y : Series R) : Series R :=
  mk_Series (name y) (map Ropp (svalues y)).

Definition swap_codes (cens : list Z) : list Z := map Z.opp cens.

(** The sign flip of the parameters as the claim states it: the entries of
    beta after the intercept negated, the intercept kept. *)
Definition flip_coefficients (beta : list R) : list R :=
  match beta with
  | [] => []
  | icpt :: coefs => icpt :: map Ropp coefs
  end.

(** Every entry of beta negated, the intercept included. *)
Definition flip_beta (beta : list R) : list R := map Ropp beta.

End RealSpec.

(* ================================================================== *)
(** ** Reading a run of [fit] *)

Section Reports.

Context {T : Type}.

(** The summary table of the last report printed. *)
Definition last_report (log : list (event T)) : option (list (string * list T)) :=
  fold_left (fun found e =>
               match e with
               | PrintReport summary _ _ _ _ _ _ _ _ => Some summary
               | _ => found
               end) log None.

(** One column of that table. *)
Definition report_column (w : world T) (col : string) : option (list T) :=
  match last_report (out w) with
  | Some summary =>
      match find (fun c => String.eqb (fst c) col) summary with
      | Some c => Some (snd c)
      | None => None
      end
  | None => None
  end.

End Reports.

(* ================================================================== *)
(** ** Small datasets, over the reals *)

Module Examples.

Import RealModel.
Local Open Scope R_scope.
Local Open Scope string_scope.

(** One observation with the censoring code 2. *)
Definition stray_x : DataFrame R := mk_DataFrame ["x1"] [[1]].
Definition stray_y : Series R := mk_Series "y" [1].
Definition stray_cens : list Z := [2%Z].

(** Three observations, the second with the censoring code 5. *)
Definition mixed_x : DataFrame R := mk_DataFrame ["x1"] [[1]; [2]; [3]].
Definition mixed_y : Series R := mk_Series "y" [10; 20; 30].
Definition mixed_cens : list Z := [0%Z; 5%Z; 1%Z].

(** Four observations with valid codes. *)
Definition tiny_x : DataFrame R := mk_DataFrame ["x1"] [[1]; [2]; [3]; [4]].
Definition tiny_y : Series R := mk_Series "y" [0; 5; 9; 0].
Definition tiny_cens : list Z := [(-1)%Z; 0%Z; 1%Z; (-1)%Z].

(** One uncensored observation with response 0 and the single feature 1. *)
Definition one_x : DataFrame R := mk_DataFrame ["x1"] [[1]].
Definition one_y : Series R := mk_Series "y" [0].
Definition one_cens : list Z := [0%Z].

(** One uncensored observation of a frame with its intercept column:
    features (1, 2), response 7. *)
Definition icpt_x : DataFrame R := mk_DataFrame ["intercept"; "x1"] [[1; 2]].
Definition icpt_y : Series R := mk_Series "y" [7].
Definition icpt_cens : list Z := [0%Z].

(** Three observations of one feature, and collaborators that return fixed
    values: least squares (0, 1), and an optimizer result with the final
    parameters (2, 3, 1) and the identity as inverse curvature. *)
Definition toy_x : DataFrame R := mk_DataFrame ["x1"] [[1]; [2]; [3]].
Definition toy_y : Series R := mk_Series "y" [1; 2; 3].
Definition toy_cens : list Z := [0%Z; 0%Z; (-1)%Z].

Definition toy_ext : Collaborators R :=
  mk_Collaborators
    (fun _ _ => inr [0; 1])
    (fun coef X => dot_mv (values X) coef)
    (fun _ _ _ _ =>
       inr (mk_OptimizeResult [2; 3; 1] 0 1
              (mk_ndarray2 3 [[1; 0; 0]; [0; 1; 0]; [0; 0; 1]]))).

(** The run of [fit] on [toy_x] with the intercept enabled. *)
Definition toy_run : res unit * world R :=
  fit toy_ext toy_x toy_y toy_cens false (mk_world (init true) []).

(** A fitted model with intercept 1, coefficient 2 and scale 1; one row of
    features (3) with the response 7. *)
Definition fitted : TobitModel R :=
  mk_TobitModel true (Some [1]) (Some 0) (Some [2]) (Some 1) (Some 1).
Definition new_x : ndarray2 R := mk_ndarray2 1 [[3]].
Definition new_y : list R := [7].

End Examples.

(** ** Small inputs, over binary64 *)

Module FloatExamples.

Import FloatModel.
Local Open Scope float_scope.

(** One uncensored observation, feature 1 and response 1, and the parameter
    vector beta = (0), sigma = 0. *)
Definition zero_scale_xs : list (option (ndarray2 float)) :=
  [None; Some (mk_ndarray2 1 [[1]]); None].
Definition zero_scale_ys : list (option (squeezed float)) :=
  [None; Some (Arr0 1); None].
Definition zero_scale_params : list float := [0; 0].

(** An inverse-curvature matrix with a negative diagonal entry. *)
Definition bad_hess_inv : ndarray2 float :=
  mk_ndarray2 3 [[1; 0; 0]; [0; -1; 0]; [0; 0; 1]].

(** Three observations of one feature, and collaborators that return fixed
    values: least squares (0, 1), and an optimizer result with the final
    parameters (2, 3, 1) and the inverse curvature [bad_hess_inv]. *)
Definition ftoy_x : DataFrame float := mk_DataFrame ["x1"%string] [[1]; [2]; [3]].
Definition ftoy_y : Series float := mk_Series "y" [1; 2; 3].
Definition ftoy_cens : list Z := [0%Z; 0%Z; (-1)%Z].

Definition bad_curvature_ext : Collaborators float :=
  mk_Collaborators
    (fun _ _ => inr [0; 1])
    (fun coef X => dot_mv (values X) coef)
    (fun _ _ _ _ => inr (mk_OptimizeResult [2; 3; 1] 0 1 bad_hess_inv)).

(** One reading of the library functions over binary64, to run [fit] on an
    example; the statements over binary64 hold for every reading. *)
Definition sample_special : Special float :=
  Build_Special (fun v => v) (fun v => v) (fun v => v) (fun v => v)
                (fun v => v) (fun v => v) (fun v => v).

(** The run of [fit] on [ftoy_x], the optimizer returning [bad_hess_inv]. *)
Definition bad_curvature_run (ST : Special float) : res unit * world float :=
  fit bad_curvature_ext ftoy_x ftoy_y ftoy_cens false (mk_world (init true) []).

End FloatExamples.

(* ================================================================== *)
(** ** Further notions for the properties of the code *)

Section ExtraDefs.

Context {T : Type}.

(** Some observation is censored: a code -1 or 1 occurs. *)
Definition any_censored (cens : list Z) : bool :=
  existsb (fun c => Z.eqb c (-1) || Z.eqb c 1) cens.

(** The text of the partitioner's warning. *)
Definition no_censored_warning : event T :=
  Warn "No censored observations; use regression methods for uncensored data".

(** The shape [np.squeeze] leaves the responses of a group of [n] records
    in: no group for none, zero-dimensional for one, one-dimensional with
    [n] entries otherwise. *)
Definition squeezed_shape (n : nat) (yg : option (squeezed T)) : Prop :=
  match n with
  | 0 => yg = None
  | 1 => exists a, yg = Some (Arr0 a)
  | _ => exists l, yg = Some (Arr1 l) /\ length l = n
  end.

End ExtraDefs.

Section ReportDefs.

Context {T : Type} {NT : Numeric T} {ST : Special T}.

(** The two-sided p-value of a z-value, [2 * (1 - norm.cdf(|z|))]. *)
Definition p_value (z : T) : T := mul (of_nat 2) (sub one (norm_cdf (absv z))).

(** The frame [fit] works on when the intercept is enabled: a column of
    ones, named intercept, in front. *)
Definition with_intercept (x : DataFrame T) : DataFrame T :=
  mk_DataFrame ("intercept"%string :: columns x) (map (cons one) (data x)).

(** The summary table of [fit], from the estimate and the standard error of
    the constant and those of the coefficients. *)
Definition summary_table (icpt ise : T) (coef cse : list T)
  : list (string * list T) :=
  [ ("coef", icpt :: coef);
    ("std err", ise :: cse);
    ("z", div icpt ise :: zip_with div coef cse);
    ("P>|z|", map round4 (map p_value (div icpt ise :: zip_with div coef cse)));
    ("[0.025", sub icpt (mul c1_96 ise) :: zip_with sub coef (map (mul c1_96) cse));
    ("0.975]", add icpt (mul c1_96 ise) :: zip_with add coef (map (mul c1_96) cse))
  ]%string.

End ReportDefs.

Module RealMoreSpec.

Import RealModel RealSpec.
Local Open Scope R_scope.

(** Two datasets put one after the other: the rows of the second frame
    under those of the first (the columns of the first kept), and likewise
    the responses. *)
Definition frame_append (x1 x2 : DataFrame R) : DataFrame R :=
  mk_DataFrame (columns x1) (data x1 ++ data x2).

Definition series_append (y1 y2 : Series R) : Series R :=
  mk_Series (name y1) (svalues y1 ++ svalues y2).

(** The shift of the data by [t]: every response moved by [t]; and of the
    parameters: the first entry of beta, the coefficient of the constant
    column, moved by [t]. *)
Definition shift_responses (t : R) (y : Series R) : Series R :=
  mk_Series (name y) (map (fun v => v + t) (svalues y)).

Definition shift_intercept (t : R) (beta : list R) : list R :=
  match beta with
  | [] => []
  | icpt :: coefs => (icpt + t) :: coefs
  end.

(** The frame has the constant column in front, as [fit] builds it. *)
Definition constant_first (x : DataFrame R) : Prop :=
  Forall (fun row => exists rest, row = 1 :: rest) (data x).

End RealMoreSpec.

(* ================================================================== *)
(** ** The partitioner: its run *)

Section Partitioner.

Context {T : Type}.

Lemma length_series_eq (cens : list Z) (v : Z) :
  length (series_eq cens v) = length cens.
Proof. unfold series_eq. apply length_map. Qed.

Lemma in_counts_bump (v u : Z) (counts : list (Z * nat)) :
  in_counts v (bump u counts) = (Z.eqb u v || in_counts v counts)%bool.
Proof.
  induction counts as [| [k n] rest IH]; simpl.
  - now rewrite orb_false_r.
  - destruct (Z.eqb k u) eqn:Hku; simpl.
    + apply Z.eqb_eq in Hku. subst k.
      destruct (Z.eqb u v); reflexivity.
    + rewrite IH. destruct (Z.eqb k v), (Z.eqb u v); reflexivity.
Qed.

Lemma in_counts_fold (v : Z) (cens : list Z) (counts : list (Z * nat)) :
  in_counts v (fold_left (fun cs u => bump u cs) cens counts)
  = (existsb (fun c => Z.eqb c v) cens || in_counts v counts)%bool.
Proof.
  revert counts. induction cens as [| c cens IH]; intros counts; simpl.
  - reflexivity.
  - rewrite IH, in_counts_bump.
    destruct (Z.eqb c v), (existsb (fun c0 => Z.eqb c0 v) cens); reflexivity.
Qed.

Lemma in_counts_value_counts (v : Z) (cens : list Z) :
  in_counts v (value_counts cens) = existsb (fun c => Z.eqb c v) cens.
Proof.
  unfold value_counts. rewrite in_counts_fold. simpl. apply orb_false_r.
Qed.

Lemma split_body_run (x : DataFrame T) (y : Series T) (cens : list Z)
    (acc : groups T) (v : Z) (log : list (event T)) :
  length (data x) = length cens ->
  length (svalues y) = length cens ->
  split_body x y cens (value_counts cens) acc v log
  = (inr (fst acc ++ [x_group x cens v], snd acc ++ [y_group y cens v]), log).
Proof.
  intros Hx Hy.
  unfold split_body, x_group, y_group.
  destruct (in_counts v (value_counts cens)).
  - unfold series_getitem, frame_getitem.
    rewrite length_series_eq, Hy, Hx, Nat.ltb_irrefl, Nat.eqb_refl.
    reflexivity.
  - reflexivity.
Qed.

(** The run of the partitioner on frames of one length: no exception, and
    at most the warning that nothing is censored. *)
Lemma split_run (x : DataFrame T) (y : Series T) (cens : list Z) (log : list (event T)) :
  length (data x) = length cens ->
  length (svalues y) = length cens ->
  exists log',
    split_left_right_censored x y cens log
    = (inr ([x_group x cens (-1); x_group x cens 0; x_group x cens 1],
            [y_group y cens (-1); y_group y cens 0; y_group y cens 1]), log').
Proof.
  intros Hx Hy.
  unfold split_left_right_censored.
  set (w := if (negb (in_counts (-1) (value_counts cens))
                && negb (in_counts 1 (value_counts cens)))%bool
            then _ else _).
  assert (Hw : exists log', w log = (inr tt, log')).
  { subst w. destruct (_ && _)%bool; eexists; reflexivity. }
  destruct Hw as [log' Hw]. exists log'.
  cbn [bind M_monad]. rewrite Hw.
  cbn [for_each bind M_monad ret].
  rewrite (split_body_run _ _ _ _ _ _ Hx Hy). cbn [fst snd app].
  rewrite (split_body_run _ _ _ _ _ _ Hx Hy). cbn [fst snd app].
  rewrite (split_body_run _ _ _ _ _ _ Hx Hy). cbn [fst snd app].
  reflexivity.
Qed.

(** The rows a mask keeps are the rows at the positions of the status. *)
Lemma select_positions {A : Type} (v : Z) (cens : list Z) :
  forall (l pre : list A) (i : nat),
    length pre = i ->
    length l = length cens ->
    map Some (select (series_eq cens v) l)
    = map (nth_error (pre ++ l)) (positions_from i cens v).
Proof.
  induction cens as [| c cens IH]; intros l pre i Hpre Hlen.
  - reflexivity.
  - destruct l as [| a l]; [discriminate Hlen |].
    simpl in Hlen. injection Hlen as Hlen.
    assert (Hrest : map Some (select (series_eq cens v) l)
                    = map (nth_error (pre ++ a :: l)) (positions_from (S i) cens v)).
    { replace (pre ++ a :: l) with ((pre ++ [a]) ++ l)
        by (rewrite <- app_assoc; reflexivity).
      apply IH; [rewrite length_app; simpl; lia | exact Hlen]. }
    simpl. destruct (Z.eqb c v); simpl.
    + rewrite Hrest. f_equal.
      rewrite nth_error_app2 by lia.
      replace (i - length pre) with 0 by lia. reflexivity.
    + exact Hrest.
Qed.

Lemma positions_from_bounds (v : Z) (cens : list Z) :
  forall i, Forall (fun j => i <= j) (positions_from i cens v).
Proof.
  induction cens as [| c cens IH]; intros i; simpl.
  - constructor.
  - assert (Hrest : Forall (fun j => i <= j) (positions_from (S i) cens v)).
    { eapply Forall_impl; [| apply IH]. simpl. intros j Hj. lia. }
    destruct (Z.eqb c v); [constructor; [lia | exact Hrest] | exact Hrest].
Qed.

(** Positions come in ascending order: the groups keep the input order. *)
Lemma positions_from_sorted (v : Z) (cens : list Z) :
  forall i, StronglySorted lt (positions_from i cens v).
Proof.
  induction cens as [| c cens IH]; intros i; simpl.
  - constructor.
  - destruct (Z.eqb c v); [| apply IH].
    constructor; [apply IH |].
    eapply Forall_impl; [| apply (positions_from_bounds v cens (S i))].
    simpl. intros j Hj. lia.
Qed.

Lemma in_positions_from (v : Z) (cens : list Z) :
  forall i j, In j (positions_from i cens v)
              <-> i <= j /\ nth_error cens (j - i) = Some v.
Proof.
  induction cens as [| c cens IH]; intros i j; simpl.
  - split; [intros [] | intros [_ H]; destruct (j - i); discriminate H].
  - assert (Hrest : In j (positions_from (S i) cens v)
                    <-> i < j /\ nth_error (c :: cens) (j - i) = Some v).
    { rewrite IH. split; intros [Hle Hn]; split; try lia.
      - replace (j - i) with (S (j - S i)) by lia. exact Hn.
      - replace (j - i) with (S (j - S i)) in Hn by lia. exact Hn. }
    destruct (Z.eqb c v) eqn:Hcv.
    + apply Z.eqb_eq in Hcv. subst c. simpl. rewrite Hrest. split.
      * intros [Heq | [Hlt Hn]]; [subst j; split; [lia |] | split; [lia | exact Hn]].
        replace (i - i) with 0 by lia. reflexivity.
      * intros [Hle Hn]. destruct (Nat.eq_dec i j) as [Heq | Hne]; [now left |].
        right. split; [lia | exact Hn].
    + rewrite Hrest. split.
      * intros [Hlt Hn]. split; [lia | exact Hn].
      * intros [Hle Hn]. split; [| exact Hn].
        destruct (Nat.eq_dec i j) as [Heq | Hne]; [| lia].
        subst j. replace (i - i) with 0 in Hn by lia. simpl in Hn.
        injection Hn as Hn. subst c. rewrite Z.eqb_refl in Hcv. discriminate Hcv.
Qed.

Lemma in_positions (v : Z) (cens : list Z) (j : nat) :
  In j (positions cens v) <-> nth_error cens j = Some v.
Proof.
  unfold positions. rewrite in_positions_from, Nat.sub_0_r.
  split; [intros [_ H]; exact H | intros H; split; [lia | exact H]].
Qed.

Lemma positions_from_nil (v : Z) (cens : list Z) :
  forall i, positions_from i cens v = []
            <-> existsb (fun c => Z.eqb c v) cens = false.
Proof.
  induction cens as [| c cens IH]; intros i; simpl.
  - split; reflexivity.
  - destruct (Z.eqb c v); simpl; [split; discriminate | apply IH].
Qed.

Lemma entries_squeeze (l : list T) : entries (np_squeeze l) = l.
Proof. destruct l as [| a [| b l]]; reflexivity. Qed.

(** Each computed group is the group of its status. *)
Lemma group_is_computed (x : DataFrame T) (y : Series T) (cens : list Z) (v : Z) :
  length (data x) = length cens ->
  length (svalues y) = length cens ->
  group_is x y (positions cens v) (x_group x cens v) (y_group y cens v).
Proof.
  intros Hx Hy. unfold group_is, x_group, y_group, positions.
  rewrite in_counts_value_counts.
  pose proof (positions_from_nil v cens 0) as Hnil.
  pose proof (@select_positions (list T) v cens (data x) [] 0 eq_refl Hx) as Hsx.
  pose proof (@select_positions T v cens (svalues y) [] 0 eq_refl Hy) as Hsy.
  simpl in Hsx, Hsy.
  destruct (existsb (fun c => Z.eqb c v) cens) eqn:Hex; simpl.
  - rewrite entries_squeeze.
    split; [exact Hsx | split; [exact Hsy | split]].
    + intros Hp. apply Hnil in Hp. discriminate Hp.
    + intros _. split; discriminate.
  - assert (Hp : positions_from 0 cens v = []) by (apply Hnil; reflexivity).
    rewrite Hp. repeat split; intros Hne; now elim Hne.
Qed.

Lemma positions_from_length_valid (cens : list Z) :
  Forall valid_code cens ->
  forall i,
    length (positions_from i cens (-1)) + length (positions_from i cens 0)
    + length (positions_from i cens 1) = length cens.
Proof.
  induction 1 as [| c cens Hc _ IH]; intros i; simpl.
  - reflexivity.
  - specialize (IH (S i)).
    destruct Hc as [-> | [-> | ->]]; simpl; lia.
Qed.

Lemma group_is_row_count (x : DataFrame T) (y : Series T) (I : list nat)
    (xg : option (ndarray2 T)) (yg : option (squeezed T)) :
  group_is x y I xg yg -> row_count xg = length I.
Proof.
  intros [Hrows _]. unfold row_count.
  apply (f_equal (@length _)) in Hrows. now rewrite !length_map in Hrows.
Qed.

Lemma valid_in_exactly_one (cens : list Z) (i : nat) :
  Forall valid_code cens ->
  i < length cens ->
  in_exactly_one i (positions cens (-1)) (positions cens 0) (positions cens 1).
Proof.
  intros Hvalid Hi. unfold in_exactly_one. rewrite !in_positions.
  destruct (nth_error cens i) as [c |] eqn:Hc.
  - assert (Hv : valid_code c).
    { rewrite Forall_forall in Hvalid. apply Hvalid. eapply nth_error_In, Hc. }
    destruct Hv as [-> | [-> | ->]].
    + left. split; [reflexivity | split; discriminate].
    + right; left. split; [discriminate | split; [reflexivity | discriminate]].
    + right; right. split; [discriminate | split; [discriminate | reflexivity]].
  - apply nth_error_None in Hc. lia.
Qed.

(** C5.  For a dataset whose censoring codes are the three statuses -1, 0
    and 1 (frame, responses and codes of one length), the partitioner returns three
    groups such that: each group holds exactly the records of its status, in
    input order (ascending positions); a status without records is [None], a
    status with records is not; every observation lies in exactly one group;
    and the row counts of the groups add up to the number of observations. *)
Theorem C5_partition_complete (x : DataFrame T) (y : Series T) (cens : list Z)
    (log : list (event T)) :
  length (data x) = length cens ->
  length (svalues y) = length cens ->
  Forall valid_code cens ->
  exists xl xm xr yl ym yr log',
    split_left_right_censored x y cens log
    = (inr ([xl; xm; xr], [yl; ym; yr]), log') /\
    group_is x y (positions cens (-1)) xl yl /\
    group_is x y (positions cens 0) xm ym /\
    group_is x y (positions cens 1) xr yr /\
    StronglySorted lt (positions cens (-1)) /\
    StronglySorted lt (positions cens 0) /\
    StronglySorted lt (positions cens 1) /\
    (forall i, i < length cens ->
       in_exactly_one i (positions cens (-1)) (positions cens 0) (positions cens 1)) /\
    row_count xl + row_count xm + row_count xr = length cens.
Proof.
  intros Hx Hy Hvalid.
  destruct (@split_run x y cens log Hx Hy) as [log' Hrun].
  pose proof (@group_is_computed x y cens (-1) Hx Hy) as Gl.
  pose proof (@group_is_computed x y cens 0 Hx Hy) as Gm.
  pose proof (@group_is_computed x y cens 1 Hx Hy) as Gr.
  do 6 eexists. exists log'.
  split; [exact Hrun |].
  split; [exact Gl |]. split; [exact Gm |]. split; [exact Gr |].
  split; [apply positions_from_sorted |].
  split; [apply positions_from_sorted |].
  split; [apply positions_from_sorted |].
  split; [intros i Hi; now apply valid_in_exactly_one |].
  rewrite (group_is_row_count _ _ _ _ _ Gl), (group_is_row_count _ _ _ _ _ Gm),
    (group_is_row_count _ _ _ _ _ Gr).
  apply positions_from_length_valid, Hvalid.
Qed.

(** C6, amended.  The partitioner validates nothing: on frames of one length
    it returns normally whatever the codes are, its three groups are the
    records with the codes -1, 0 and 1, and a record whose code is none of
    these lies in no group. *)
Theorem C6_invalid_codes_dropped (x : DataFrame T) (y : Series T) (cens : list Z)
    (log : list (event T)) :
  length (data x) = length cens ->
  length (svalues y) = length cens ->
  exists xl xm xr yl ym yr log',
    split_left_right_censored x y cens log
    = (inr ([xl; xm; xr], [yl; ym; yr]), log') /\
    group_is x y (positions cens (-1)) xl yl /\
    group_is x y (positions cens 0) xm ym /\
    group_is x y (positions cens 1) xr yr /\
    (forall i c, nth_error cens i = Some c -> ~ valid_code c ->
       ~ In i (positions cens (-1)) /\ ~ In i (positions cens 0)
       /\ ~ In i (positions cens 1)).
Proof.
  intros Hx Hy.
  destruct (@split_run x y cens log Hx Hy) as [log' Hrun].
  do 6 eexists. exists log'.
  split; [exact Hrun |].
  split; [now apply group_is_computed |].
  split; [now apply group_is_computed |].
  split; [now apply group_is_computed |].
  intros i c Hc Hinvalid. rewrite !in_positions, Hc.
  split; [| split]; intros Heq; injection Heq as ->; apply Hinvalid;
    unfold valid_code; auto.
Qed.

End Partitioner.

Module PartitionerExamples.

Import RealModel Examples.

Lemma C5_witness :
  exists xl xm xr yl ym yr log',
    split_left_right_censored tiny_x tiny_y tiny_cens []
    = (inr ([xl; xm; xr], [yl; ym; yr]), log') /\
    group_is tiny_x tiny_y (positions tiny_cens (-1)) xl yl /\
    group_is tiny_x tiny_y (positions tiny_cens 0) xm ym /\
    group_is tiny_x tiny_y (positions tiny_cens 1) xr yr /\
    StronglySorted lt (positions tiny_cens (-1)) /\
    StronglySorted lt (positions tiny_cens 0) /\
    StronglySorted lt (positions tiny_cens 1) /\
    (forall i, i < length tiny_cens ->
       in_exactly_one i (positions tiny_cens (-1)) (positions tiny_cens 0)
                      (positions tiny_cens 1)) /\
    row_count xl + row_count xm + row_count xr = length tiny_cens.
Proof.
  apply (@C5_partition_complete R tiny_x tiny_y tiny_cens []).
  - reflexivity.
  - reflexivity.
  - unfold tiny_cens.
    repeat (apply Forall_cons; [unfold valid_code; auto |]). apply Forall_nil.
Defined.

(** C6 as stated fails: [mixed_cens] holds the code 5, and the partitioner
    returns normally, the second observation dropped. *)
Lemma C6_counterexample :
  split_left_right_censored mixed_x mixed_y mixed_cens []
  = (inr ([None;
           Some (mk_ndarray2 1 [[1%R]]);
           Some (mk_ndarray2 1 [[3%R]])],
          [None; Some (Arr0 10%R); Some (Arr0 30%R)]),
     []).
Proof. reflexivity. Qed.

Lemma C6_witness :
  exists xl xm xr yl ym yr log',
    split_left_right_censored mixed_x mixed_y mixed_cens []
    = (inr ([xl; xm; xr], [yl; ym; yr]), log') /\
    group_is mixed_x mixed_y (positions mixed_cens (-1)) xl yl /\
    group_is mixed_x mixed_y (positions mixed_cens 0) xm ym /\
    group_is mixed_x mixed_y (positions mixed_cens 1) xr yr /\
    (forall i c, nth_error mixed_cens i = Some c -> ~ valid_code c ->
       ~ In i (positions mixed_cens (-1)) /\ ~ In i (positions mixed_cens 0)
       /\ ~ In i (positions mixed_cens 1)).
Proof.
  apply (@C6_invalid_codes_dropped R mixed_x mixed_y mixed_cens []); reflexivity.
Defined.

End PartitionerExamples.

(* ================================================================== *)
(** ** The objective on a partitioned dataset, for any scalar type *)

Section Objective.

Context {T : Type} {NT : Numeric T} {ST : Special T}.

Lemma but_last_app (b : list T) (s : T) : but_last (b ++ [s]) = b.
Proof. unfold but_last. apply removelast_last. Qed.

Lemma last_entry_app (b : list T) (s : T) : last_entry (b ++ [s]) = inr s.
Proof.
  destruct b as [| a b]; [reflexivity |].
  cbn [app last_entry]. rewrite last_last. reflexivity.
Qed.

Lemma length_select_series_eq {A B : Type} (cens : list Z) (v : Z)
    (l : list A) (l' : list B) :
  length l = length cens -> length l' = length cens ->
  length (select (series_eq cens v) l) = length (select (series_eq cens v) l').
Proof.
  revert l l'. induction cens as [| c cens IH]; intros l l' Hl Hl'.
  - reflexivity.
  - destruct l as [| a l]; [discriminate Hl |].
    destruct l' as [| a' l']; [discriminate Hl' |].
    simpl in *. destruct (Z.eqb c v); simpl; auto.
Qed.

Lemma select_absent {A : Type} (cens : list Z) (v : Z) (l : list A) :
  in_counts v (value_counts cens) = false ->
  select (series_eq cens v) l = [].
Proof.
  rewrite in_counts_value_counts. revert l.
  induction cens as [| c cens IH]; intros l Hex; simpl in *.
  - reflexivity.
  - apply orb_false_iff in Hex. destruct Hex as [Hc Hex]. rewrite Hc.
    destruct l; [reflexivity | now apply IH].
Qed.

Lemma sq_sub_l_squeeze (l d : list T) :
  length l = length d ->
  sq_sub_l (np_squeeze l) d = inr (zip_with sub l d).
Proof.
  intros Hlen. destruct l as [| a [| a' l]].
  - destruct d; [reflexivity | discriminate Hlen].
  - destruct d as [| d0 [| d1 d]]; try discriminate Hlen. reflexivity.
  - cbn [np_squeeze sq_sub_l]. unfold broadcast.
    rewrite Hlen, Nat.eqb_refl. reflexivity.
Qed.

Lemma sq_sub_r_squeeze (l d : list T) :
  length l = length d ->
  sq_sub_r d (np_squeeze l) = inr (zip_with sub d l).
Proof.
  intros Hlen. destruct l as [| a [| a' l]].
  - destruct d; [reflexivity | discriminate Hlen].
  - destruct d as [| d0 [| d1 d]]; try discriminate Hlen. reflexivity.
  - cbn [np_squeeze sq_sub_r]. unfold broadcast.
    rewrite Hlen, Nat.eqb_refl. reflexivity.
Qed.

Lemma dot_mv_group (x : DataFrame T) (cens : list Z) (b : list T) (v : Z) :
  length (columns x) = length b ->
  dot_mv (mk_ndarray2 (length (columns x)) (select (series_eq cens v) (data x))) b
  = inr (map (fun row => inner row b) (rows_of x cens v)).
Proof.
  intros Hb. unfold dot_mv. cbn [ncols rows]. rewrite Hb, Nat.eqb_refl. reflexivity.
Qed.

Lemma length_group (x : DataFrame T) (y : Series T) (cens : list Z) (b : list T) (v : Z) :
  length (data x) = length cens ->
  length (svalues y) = length cens ->
  length (select (series_eq cens v) (svalues y))
  = length (map (fun row => inner row b) (rows_of x cens v)).
Proof.
  intros Hx Hy. rewrite length_map. unfold rows_of.
  now apply length_select_series_eq.
Qed.

Lemma resid_l_absent (x : DataFrame T) (y : Series T) (cens : list Z) (b : list T) (v : Z) :
  in_counts v (value_counts cens) = false -> resid_l x y cens b v = [].
Proof.
  intros H. unfold resid_l, resp_of. now rewrite (select_absent _ _ _ H).
Qed.

Lemma resid_r_absent (x : DataFrame T) (y : Series T) (cens : list Z) (b : list T) (v : Z) :
  in_counts v (value_counts cens) = false -> resid_r x y cens b v = [].
Proof.
  intros H. unfold resid_r, rows_of. now rewrite (select_absent _ _ _ H).
Qed.

End Objective.

(** Both evaluators start with the same residuals of a group. *)
Ltac group_present Hx Hy Hb :=
  cbn [need bind res_monad ret];
  rewrite (dot_mv_group _ _ _ _ Hb);
  first [ rewrite (sq_sub_l_squeeze _ _ (length_group _ _ _ _ _ Hx Hy))
        | rewrite (sq_sub_r_squeeze _ _ (length_group _ _ _ _ _ Hx Hy)) ].

Section ObjectiveRun.

Context {T : Type} {NT : Numeric T} {ST : Special T}.

(** The objective on the groups of a dataset: the log-CDF terms of the left
    and right residuals, and the log-density terms of the uncensored ones. *)
Lemma tobit_nll_partitioned (x : DataFrame T) (y : Series T) (cens : list Z)
    (b : list T) (s : T) :
  length (data x) = length cens ->
  length (svalues y) = length cens ->
  length (columns x) = length b ->
  tobit_neg_log_likelihood (fst (partitioned x y cens)) (snd (partitioned x y cens))
                           (b ++ [s])
  = (mid_sum <-
       (if in_counts 0 (value_counts cens) then
          lg <- math_log (pymax resolution s) ;;
          ret (np_sum (map (fun z => sub (norm_logpdf z) lg)
                           (map (fun v => div v s) (resid_l x y cens b 0))))
        else ret zero) ;;
     ret (neg (add (np_sum (map norm_logcdf
                                (map (fun v => div v s)
                                     (resid_l x y cens b (-1) ++ resid_r x y cens b 1))))
                   mid_sum))).
Proof.
  intros Hx Hy Hb.
  unfold tobit_neg_log_likelihood, partitioned.
  cbn [fst snd unpack3 bind res_monad ret].
  rewrite but_last_app, last_entry_app.
  unfold y_group, x_group.
  destruct (in_counts (-1) (value_counts cens)) eqn:Hl;
    [group_present Hx Hy Hb; fold (resp_of y cens (-1)); fold (resid_l x y cens b (-1))
    | rewrite (resid_l_absent x y cens b _ Hl)];
  (destruct (in_counts 1 (value_counts cens)) eqn:Hr;
    [group_present Hx Hy Hb; fold (resp_of y cens 1); fold (resid_r x y cens b 1)
    | rewrite (resid_r_absent x y cens b _ Hr)]);
  (destruct (in_counts 0 (value_counts cens)) eqn:Hm;
    [group_present Hx Hy Hb; fold (resp_of y cens 0); fold (resid_l x y cens b 0) |]);
  cbn [app concat]; rewrite ?app_nil_r; reflexivity.
Qed.

End ObjectiveRun.

(* ================================================================== *)
(** ** The objective over the reals *)

Module RealObjective.

Import RealModel RealSpec Examples.
Local Open Scope R_scope.

Ltac real_ops :=
  cbn [zero one add sub mul div neg ltb leb absv sqrtv of_nat isnan resolution
       c1_96 R_numeric ln np_exp norm_logpdf norm_logcdf log_ndtr norm_cdf round4
       R_special] in *.

Lemma np_sum_Rsum (l : list R) : np_sum l = Rsum l.
Proof.
  unfold np_sum, Rsum. real_ops.
  apply fold_symmetric; intros; ring.
Qed.

Lemma Rsum_app (l1 l2 : list R) : Rsum (l1 ++ l2) = Rsum l1 + Rsum l2.
Proof.
  unfold Rsum. induction l1 as [| a l1 IH]; simpl; [ring | rewrite IH; ring].
Qed.

Lemma inner_Rdot (u v : list R) : inner u v = Rdot u v.
Proof.
  unfold inner, Rdot. rewrite np_sum_Rsum. f_equal.
  revert v. induction u as [| a u IH]; intros [| c v]; simpl; try reflexivity.
  real_ops. now rewrite IH.
Qed.

Lemma resolution_pos : 0 < resolution.
Proof.
  real_ops. apply Rdiv_lt_0_compat; [lra | apply pow_lt; lra].
Qed.

Lemma pymax_Rmax (a b : R) : pymax a b = Rmax a b.
Proof.
  unfold pymax, Rmax. real_ops. unfold Rltb.
  destruct (Rlt_dec a b), (Rle_dec a b); try reflexivity; lra.
Qed.

(** The floor keeps math.log inside its domain, whatever sigma is. *)
Lemma math_log_floor (s : R) :
  math_log (pymax resolution s) = inr (Rpower.ln (Rmax resolution s)).
Proof.
  unfold math_log. rewrite pymax_Rmax. real_ops. unfold Rleb.
  destruct (Rle_dec (Rmax (1 / 10 ^ 15) s) 0) as [Hle | _]; [| reflexivity].
  pose proof resolution_pos as Hpos. real_ops.
  pose proof (Rmax_l (1 / 10 ^ 15) s). lra.
Qed.

Lemma sqrt_2PI_pos : 0 < R_sqrt.sqrt (2 * PI).
Proof. apply sqrt_lt_R0. pose proof PI_RGT_0. lra. Qed.

(** scipy's log-density is the logarithm of the density. *)
Lemma norm_logpdf_ln_phi (z : R) : norm_logpdf z = Rpower.ln (phi z).
Proof.
  real_ops. unfold phi, Rdiv at 2.
  rewrite ln_mult;
    [| apply exp_pos | apply Rinv_0_lt_compat, sqrt_2PI_pos].
  rewrite ln_exp, ln_Rinv by apply sqrt_2PI_pos. lra.
Qed.

Lemma select_combine {A B : Type} (mask : list bool) :
  forall (l : list A) (l' : list B),
    select mask (combine l l') = combine (select mask l) (select mask l').
Proof.
  induction mask as [| m mask IH]; intros l l'.
  - reflexivity.
  - destruct l as [| a l]; [reflexivity |].
    destruct l' as [| a' l'].
    + simpl. destruct m; [reflexivity |]. now destruct (select mask l).
    + simpl. destruct m; simpl; now rewrite IH.
Qed.

Lemma map_zip_l (f : R -> R) (b : list R) (X : list (list R)) :
  forall Y : list R,
    map f (zip_with sub Y (map (fun row => inner row b) X))
    = map (fun o => f (snd o - Rdot (fst o) b)) (combine X Y).
Proof.
  induction X as [| r X IH]; intros [| a Y]; simpl; try reflexivity.
  rewrite IH, inner_Rdot. reflexivity.
Qed.

Lemma map_zip_r (f : R -> R) (b : list R) (X : list (list R)) :
  forall Y : list R,
    map f (zip_with sub (map (fun row => inner row b) X) Y)
    = map (fun o => f (Rdot (fst o) b - snd o)) (combine X Y).
Proof.
  induction X as [| r X IH]; intros [| a Y]; simpl; try reflexivity.
  rewrite IH, inner_Rdot. reflexivity.
Qed.

(** The code's residuals, read observation by observation. *)
Lemma map_resid_l (f : R -> R) (x : DataFrame R) (y : Series R) (cens : list Z)
    (b : list R) (v : Z) :
  map f (resid_l x y cens b v)
  = map (fun o => f (snd o - Rdot (fst o) b)) (observations x y cens v).
Proof.
  unfold resid_l, resp_of, rows_of, observations.
  rewrite select_combine. apply map_zip_l.
Qed.

Lemma map_resid_r (f : R -> R) (x : DataFrame R) (y : Series R) (cens : list Z)
    (b : list R) (v : Z) :
  map f (resid_r x y cens b v)
  = map (fun o => f (Rdot (fst o) b - snd o)) (observations x y cens v).
Proof.
  unfold resid_r, resp_of, rows_of, observations.
  rewrite select_combine. apply map_zip_r.
Qed.

Lemma observations_absent (x : DataFrame R) (y : Series R) (cens : list Z) (v : Z) :
  in_counts v (value_counts cens) = false -> observations x y cens v = [].
Proof. apply select_absent. Qed.

(** The objective on a partitioned dataset is the negated log-likelihood,
    sigma floored inside the logarithm. *)
Lemma tobit_nll_real (x : DataFrame R) (y : Series R) (cens : list Z)
    (beta : list R) (sigma : R) :
  length (data x) = length cens ->
  length (svalues y) = length cens ->
  length (columns x) = length beta ->
  tobit_neg_log_likelihood (fst (partitioned x y cens)) (snd (partitioned x y cens))
                           (beta ++ [sigma])
  = inr (- loglik_floored x y cens beta sigma).
Proof.
  intros Hx Hy Hb.
  rewrite (tobit_nll_partitioned x y cens beta sigma Hx Hy Hb).
  unfold loglik_floored, loglik_with.
  rewrite math_log_floor.
  rewrite np_sum_Rsum, map_map, map_app, Rsum_app.
  rewrite (map_resid_l (fun v => norm_logcdf (div v sigma))),
          (map_resid_r (fun v => norm_logcdf (div v sigma))).
  destruct (in_counts 0 (value_counts cens)) eqn:Hm;
    cbn [bind res_monad ret].
  - rewrite np_sum_Rsum, map_map.
    rewrite (map_resid_l (fun v => sub (norm_logpdf (div v sigma))
                                       (Rpower.ln (Rmax resolution sigma)))).
    f_equal. real_ops. f_equal. f_equal. f_equal.
    apply map_ext. intros o.
    pose proof (norm_logpdf_ln_phi ((snd o - Rdot (fst o) beta) / sigma)) as E.
    real_ops. rewrite <- E. reflexivity.
  - rewrite (observations_absent x y cens 0 Hm). real_ops. simpl. reflexivity.
Qed.

Lemma split_partitioned (x : DataFrame R) (y : Series R) (cens : list Z)
    (log log' : list (event R)) (xs : list (option (ndarray2 R)))
    (ys : list (option (squeezed R))) :
  length (data x) = length cens ->
  length (svalues y) = length cens ->
  split_left_right_censored x y cens log = (inr (xs, ys), log') ->
  xs = fst (partitioned x y cens) /\ ys = snd (partitioned x y cens).
Proof.
  intros Hx Hy Hrun.
  destruct (split_run x y cens log Hx Hy) as [log'' Hrun'].
  rewrite Hrun' in Hrun. injection Hrun as <- <- _. split; reflexivity.
Qed.

(** C1, amended.  For every dataset (frame, responses and codes of one
    length), its groups as the partitioner returns them, and every parameter
    vector (beta, sigma) with one coefficient per column, the objective
    returns the negative of the sum of: log Phi((y_i - x_i.beta)/sigma) over
    the left group, log Phi((x_i.beta - y_i)/sigma) over the right group, and
    log phi((y_i - x_i.beta)/sigma) - log(max(resolution, sigma)) over the
    uncensored group (an absent group contributes 0).  For sigma at or above
    the resolution 1e-15 the last term is log sigma, as the claim has it. *)
Theorem C1_neg_log_likelihood_value (x : DataFrame R) (y : Series R) (cens : list Z)
    (beta : list R) (sigma : R) (log log' : list (event R))
    (xs : list (option (ndarray2 R))) (ys : list (option (squeezed R))) :
  length (data x) = length cens ->
  length (svalues y) = length cens ->
  length (columns x) = length beta ->
  split_left_right_censored x y cens log = (inr (xs, ys), log') ->
  tobit_neg_log_likelihood xs ys (beta ++ [sigma])
  = inr (- loglik_floored x y cens beta sigma)
  /\ (resolution <= sigma ->
      loglik_floored x y cens beta sigma = loglik_claimed x y cens beta sigma).
Proof.
  intros Hx Hy Hb Hrun.
  destruct (split_partitioned x y cens log log' xs ys Hx Hy Hrun) as [-> ->].
  split; [now apply tobit_nll_real |].
  intros Hres. unfold loglik_floored, loglik_claimed.
  now rewrite Rmax_right.
Qed.

Lemma C1_witness :
  tobit_neg_log_likelihood
    [Some (mk_ndarray2 1 [[1]; [4]]); Some (mk_ndarray2 1 [[2]]); Some (mk_ndarray2 1 [[3]])]
    [Some (Arr1 [0; 0]); Some (Arr0 5); Some (Arr0 9)]
    ([2] ++ [1])
  = inr (- loglik_floored tiny_x tiny_y tiny_cens [2] 1)
  /\ (resolution <= 1 ->
      loglik_floored tiny_x tiny_y tiny_cens [2] 1
      = loglik_claimed tiny_x tiny_y tiny_cens [2] 1).
Proof.
  apply (C1_neg_log_likelihood_value tiny_x tiny_y tiny_cens [2] 1 [] []);
    reflexivity.
Defined.

(** C1 as stated fails below the resolution: at sigma = 1e-16, on one
    uncensored observation, the code subtracts log(1e-15), not log(1e-16). *)
Lemma C1_counterexample :
  split_left_right_censored one_x one_y one_cens []
  = (inr ([None; Some (mk_ndarray2 1 [[1]]); None], [None; Some (Arr0 0); None]),
     [@Warn R "No censored observations; use regression methods for uncensored data"%string])
  /\ tobit_neg_log_likelihood
       [None; Some (mk_ndarray2 1 [[1]]); None] [None; Some (Arr0 0); None]
       ([0] ++ [1 / 10 ^ 16])
     <> inr (- loglik_claimed one_x one_y one_cens [0] (1 / 10 ^ 16)).
Proof.
  split; [reflexivity |].
  change [None; Some (mk_ndarray2 1 [[1]]); None]
    with (fst (partitioned one_x one_y one_cens)).
  change [None; Some (Arr0 0); None] with (snd (partitioned one_x one_y one_cens)).
  rewrite tobit_nll_real by reflexivity.
  assert (Hs : 0 < 1 / 10 ^ 16) by (apply Rdiv_lt_0_compat; [lra | apply pow_lt; lra]).
  assert (Hlt : 1 / 10 ^ 16 < resolution).
  { cbn [resolution R_numeric]. unfold Rdiv. rewrite !Rmult_1_l.
    apply Rinv_lt_contravar; [apply Rmult_lt_0_compat; apply pow_lt; lra |].
    apply Rlt_pow; [lra | lia]. }
  pose proof resolution_pos as Hr.
  generalize dependent (1 / 10 ^ 16). intros s Hs Hlt.
  unfold loglik_floored, loglik_claimed, loglik_with, observations.
  generalize dependent (@resolution R R_numeric). intros r Hr Hlt.
  intros Heq. injection Heq as Heq.
  cbn [one_x one_y one_cens data svalues series_eq map combine select Z.eqb
       Rsum fold_right fst snd] in Heq.
  rewrite Rmax_left in Heq by lra.
  assert (Hln : Rpower.ln r = Rpower.ln s) by lra.
  apply ln_inv in Hln; [lra | exact Hr | exact Hs].
Qed.

End RealObjective.

(* ================================================================== *)
(** ** Symmetry of the objective under the sign flip *)

Module RealSymmetry.

Import RealModel RealSpec Examples RealObjective.
Local Open Scope R_scope.

Lemma series_eq_swap (cens : list Z) (v : Z) :
  series_eq (swap_codes cens) v = series_eq cens (- v)%Z.
Proof.
  unfold series_eq, swap_codes. rewrite map_map. apply map_ext. intros c.
  destruct (Z.eqb_spec (- c) v), (Z.eqb_spec c (- v)); try reflexivity; lia.
Qed.

Lemma select_map {A B : Type} (g : A -> B) (mask : list bool) :
  forall l : list A, select mask (map g l) = map g (select mask l).
Proof.
  induction mask as [| m mask IH]; intros [| a l]; simpl; try reflexivity.
  destruct m; simpl; now rewrite IH.
Qed.

Lemma combine_map_r {A : Type} (g : R -> R) (X : list A) :
  forall Y : list R,
    combine X (map g Y) = map (fun o => (fst o, g (snd o))) (combine X Y).
Proof.
  induction X as [| a X IH]; intros [| c Y]; simpl; try reflexivity.
  now rewrite IH.
Qed.

(** The observations of the flipped data: those of the opposite status,
    their responses negated. *)
Lemma observations_flip (x : DataFrame R) (y : Series R) (cens : list Z) (v : Z) :
  observations x (negate_responses y) (swap_codes cens) v
  = map (fun o => (fst o, - snd o)) (observations x y cens (- v)%Z).
Proof.
  unfold observations, negate_responses. cbn [svalues].
  rewrite series_eq_swap, combine_map_r. apply select_map.
Qed.

Lemma Rdot_opp (u v : list R) : Rdot u (map Ropp v) = - Rdot u v.
Proof.
  unfold Rdot, Rsum. revert v.
  induction u as [| a u IH]; intros [| c v]; simpl; try ring.
  rewrite IH. ring.
Qed.

Lemma phi_even (t : R) : phi (- t) = phi t.
Proof. unfold phi. do 2 f_equal. field. Qed.

Lemma loglik_flip (x : DataFrame R) (y : Series R) (cens : list Z)
    (beta : list R) (sigma : R) :
  loglik_floored x (negate_responses y) (swap_codes cens) (flip_beta beta) sigma
  = loglik_floored x y cens beta sigma.
Proof.
  unfold loglik_floored, loglik_with, flip_beta.
  rewrite !observations_flip, !map_map. cbn [Z.opp fst snd].
  assert (Hl : forall o : list R * R,
             (- snd o - Rdot (fst o) (map Ropp beta)) / sigma
             = (Rdot (fst o) beta - snd o) / sigma).
  { intros o. rewrite Rdot_opp. unfold Rdiv. ring. }
  assert (Hr : forall o : list R * R,
             (Rdot (fst o) (map Ropp beta) - - snd o) / sigma
             = (snd o - Rdot (fst o) beta) / sigma).
  { intros o. rewrite Rdot_opp. unfold Rdiv. ring. }
  assert (Hm : forall o : list R * R,
             phi ((- snd o - Rdot (fst o) (map Ropp beta)) / sigma)
             = phi ((snd o - Rdot (fst o) beta) / sigma)).
  { intros o. rewrite <- phi_even. f_equal. rewrite Rdot_opp. unfold Rdiv. ring. }
  rewrite (map_ext _ _ (fun o => f_equal (fun t => Rpower.ln (Phi t)) (Hl o))).
  rewrite (map_ext (fun o => Rpower.ln (Phi ((Rdot (fst o) (map Ropp beta) - - snd o) / sigma)))
                   _ (fun o => f_equal (fun t => Rpower.ln (Phi t)) (Hr o))).
  rewrite (map_ext (fun o => Rpower.ln (phi ((- snd o - Rdot (fst o) (map Ropp beta)) / sigma))
                             - Rpower.ln (Rmax resolution sigma))
                   _ (fun o => f_equal (fun t => Rpower.ln t - Rpower.ln (Rmax resolution sigma))
                                       (Hm o))).
  ring.
Qed.

(** C9, amended.  Negating all responses, exchanging the LEFT and RIGHT
    codes and negating every entry of beta, the intercept included (the
    scale unchanged), the objective returns the same value as on the original
    data and parameters. *)
Theorem C9_sign_flip_symmetry (x : DataFrame R) (y : Series R) (cens : list Z)
    (beta : list R) (sigma : R) (log log1 log2 : list (event R))
    (xs xs' : list (option (ndarray2 R))) (ys ys' : list (option (squeezed R))) :
  length (data x) = length cens ->
  length (svalues y) = length cens ->
  length (columns x) = length beta ->
  split_left_right_censored x y cens log = (inr (xs, ys), log1) ->
  split_left_right_censored x (negate_responses y) (swap_codes cens) log
  = (inr (xs', ys'), log2) ->
  exists value : R,
    tobit_neg_log_likelihood xs ys (beta ++ [sigma]) = inr value /\
    tobit_neg_log_likelihood xs' ys' (flip_beta beta ++ [sigma]) = inr value.
Proof.
  intros Hx Hy Hb Hrun Hrun'.
  assert (Hy' : length (svalues (negate_responses y)) = length (swap_codes cens)).
  { unfold negate_responses, swap_codes. cbn [svalues]. now rewrite !length_map. }
  assert (Hx' : length (data x) = length (swap_codes cens)).
  { unfold swap_codes. now rewrite length_map. }
  assert (Hb' : length (columns x) = length (flip_beta beta)).
  { unfold flip_beta. now rewrite length_map. }
  destruct (split_partitioned x y cens log log1 xs ys Hx Hy Hrun) as [-> ->].
  destruct (split_partitioned x _ _ log log2 xs' ys' Hx' Hy' Hrun') as [-> ->].
  exists (- loglik_floored x y cens beta sigma). split.
  - now apply tobit_nll_real.
  - rewrite tobit_nll_real by assumption. now rewrite loglik_flip.
Qed.

Lemma C9_witness :
  exists value : R,
    tobit_neg_log_likelihood
      [Some (mk_ndarray2 1 [[1]; [4]]); Some (mk_ndarray2 1 [[2]]); Some (mk_ndarray2 1 [[3]])]
      [Some (Arr1 [0; 0]); Some (Arr0 5); Some (Arr0 9)]
      ([2] ++ [1]) = inr value /\
    tobit_neg_log_likelihood
      [Some (mk_ndarray2 1 [[3]]); Some (mk_ndarray2 1 [[2]]); Some (mk_ndarray2 1 [[1]; [4]])]
      [Some (Arr0 (- 9)); Some (Arr0 (- 5)); Some (Arr1 [- 0; - 0])]
      (flip_beta [2] ++ [1]) = inr value.
Proof.
  apply (C9_sign_flip_symmetry tiny_x tiny_y tiny_cens [2] 1 [] [] []);
    reflexivity.
Defined.

(** C9 as stated fails: with the intercept kept (here 1) and only the
    coefficient negated (3 to -3), the objective on the flipped observation
    differs from the objective on the original one. *)
Lemma C9_counterexample :
  split_left_right_censored icpt_x icpt_y icpt_cens []
  = (inr (partitioned icpt_x icpt_y icpt_cens),
     [@Warn R "No censored observations; use regression methods for uncensored data"%string])
  /\ split_left_right_censored icpt_x (negate_responses icpt_y) (swap_codes icpt_cens) []
  = (inr (partitioned icpt_x (negate_responses icpt_y) (swap_codes icpt_cens)),
     [@Warn R "No censored observations; use regression methods for uncensored data"%string])
  /\ tobit_neg_log_likelihood
       (fst (partitioned icpt_x (negate_responses icpt_y) (swap_codes icpt_cens)))
       (snd (partitioned icpt_x (negate_responses icpt_y) (swap_codes icpt_cens)))
       (flip_coefficients [1; 3] ++ [1])
     <> tobit_neg_log_likelihood
          (fst (partitioned icpt_x icpt_y icpt_cens))
          (snd (partitioned icpt_x icpt_y icpt_cens))
          ([1; 3] ++ [1]).
Proof.
  split; [reflexivity |]. split; [reflexivity |].
  rewrite !tobit_nll_real by reflexivity.
  intros Heq. injection Heq as Heq.
  unfold loglik_floored, loglik_with, observations in Heq.
  generalize dependent (Rpower.ln (Rmax resolution 1)). intros lsig Heq.
  cbn [icpt_x icpt_y icpt_cens data svalues series_eq swap_codes negate_responses
       flip_coefficients map combine select Z.eqb Z.opp Rsum Rdot fold_right
       fst snd] in Heq.
  rewrite <- !norm_logpdf_ln_phi in Heq.
  cbn [norm_logpdf R_special] in Heq.
  lra.
Qed.

End RealSymmetry.

(* ================================================================== *)
(** ** NaN and infinities: the code over binary64 *)

Module FloatFacts.

Import FloatModel FloatExamples.
Local Open Scope float_scope.

(** The gradient at sigma = 0 on one uncensored observation, whatever the
    library functions are: no path through the uncensored group calls them. *)
Lemma der_zero_scale (ST : Special float) :
  tobit_neg_log_likelihood_der zero_scale_xs zero_scale_ys zero_scale_params
  = inr [neg_infinity; neg_infinity].
Proof. vm_compute. reflexivity. Qed.

(** C4 as stated fails: at the proposed scale sigma = 0 the gradient
    returns (-inf, -inf) under every reading of the library functions, and
    neither entry is finite. *)
Lemma C4_counterexample :
  (~ exists ST : Special float,
       tobit_neg_log_likelihood_der zero_scale_xs zero_scale_ys zero_scale_params
       <> inr [neg_infinity; neg_infinity])
  /\ forallb finite [neg_infinity; neg_infinity] = false
  /\ last_entry zero_scale_params = inr 0
  /\ (0 <=? 0) = true.
Proof.
  split; [| repeat split; reflexivity].
  intros [ST Hne]. apply Hne. apply der_zero_scale.
Qed.

Lemma negative_sign (d : float) :
  (d <? 0) = true ->
  Prim2SF d = S754_infinity true
  \/ exists m e, Prim2SF d = S754_finite true m e.
Proof.
  rewrite ltb_spec. change (Prim2SF 0) with (S754_zero false).
  destruct (Prim2SF d) as [sg | sg | | sg m e]; cbn.
  - discriminate.
  - destruct sg; [now left | discriminate].
  - discriminate.
  - destruct sg; [right; now exists m, e | discriminate].
Qed.

(** [np.sqrt] of a negative number is NaN. *)
Lemma sqrt_negative (d : float) : (d <? 0) = true -> PrimFloat.sqrt d = nan.
Proof.
  intros Hd. apply Prim2SF_inj. rewrite sqrt_spec.
  destruct (negative_sign d Hd) as [E | [m [e E]]]; rewrite E; reflexivity.
Qed.

(** A quotient by NaN is NaN. *)
Lemma div_nan (c : float) : c / nan = nan.
Proof.
  apply Prim2SF_inj. rewrite div_spec. change (Prim2SF nan) with S754_nan.
  destruct (Prim2SF c) as [sg | sg | | sg m e]; reflexivity.
Qed.

(** The standard error of a negative diagonal entry of the inverse
    curvature is NaN, and so is every quotient by it. *)
Lemma negative_curvature_std_error (H : ndarray2 float) (i : nat) (d : float) :
  nth_error (np_diag H) i = Some d ->
  (d <? 0) = true ->
  nth_error (std_errors H) i = Some nan.
Proof.
  intros Hi Hd. unfold std_errors.
  rewrite nth_error_map, Hi. cbn [option_map sqrtv float_numeric].
  now rewrite sqrt_negative.
Qed.

Lemma bad_curvature_run_returns (ST : Special float) :
  fst (bad_curvature_run ST) = inr tt
  /\ report_column (snd (bad_curvature_run ST)) "std err" = Some [1; nan]
  /\ report_column (snd (bad_curvature_run ST)) "z" = Some [3; nan].
Proof. vm_compute. repeat split; reflexivity. Qed.

(** C7 as stated fails: with the diagonal entry -1 in the inverse curvature,
    [fit] raises nothing under any reading of the library functions; it
    returns normally and reports NaN as standard error and as z-value. *)
Lemma C7_counterexample :
  ~ exists ST : Special float,
      ~ (fst (bad_curvature_run ST) = inr tt
         /\ report_column (snd (bad_curvature_run ST)) "std err" = Some [1; nan]
         /\ report_column (snd (bad_curvature_run ST)) "z" = Some [3; nan]).
Proof.
  intros [ST Hnot]. apply Hnot. apply bad_curvature_run_returns.
Qed.

End FloatFacts.

(* ================================================================== *)
(** ** The methods of TobitModel *)

(** One step of a run that is known to return: the computation in head
    position returned, with a value to continue from. *)
Ltac run_step H :=
  match type of H with
  | (match ?c with inl _ => _ | inr _ => _ end) = _ =>
      let E := fresh "E" in destruct c eqn:E; [discriminate H |]
  | (let (_, _) := ?c in _) = _ =>
      let E := fresh "E" in destruct c eqn:E
  | (let (_, _) := ?c in _) _ = _ => destruct c
  end;
  cbn [self out fit_intercept set_ols_coef_ set_ols_intercept set_intercept_
       set_coef_ set_sigma_] in H.

(** One step of a run that is followed forward: the attributes read and
    assigned so far. *)
Ltac fit_simpl :=
  cbn [self out fit_intercept set_ols_coef_ set_ols_intercept set_coef_
       set_intercept_ set_sigma_ coef_ intercept_ bind res_monad ret need local].

Section FitFacts.

Context {T : Type} {NT : Numeric T} {ST : Special T}.

(** C10.  With [fit_intercept = False], [fit] raises (AttributeError, or
    TypeError when the frame has a column named scale) at the centering call,
    before the least-squares solver and the optimizer are entered: the world
    is left as it was, so no attribute of the instance is assigned and the
    log holds no [CallMinimize]. *)
Theorem C10_no_intercept_mode_raises (ext : Collaborators T) (x : DataFrame T)
    (y : Series T) (cens : list Z) (verbose : bool) (w : world T) :
  fit_intercept (self w) = false ->
  exists e : exn,
    fit ext x y cens verbose w = (inl e, w)
    /\ (e = AttributeError \/ e = TypeError).
Proof.
  intros Hmode. unfold fit, gets, lift_res, frame_call_scale.
  cbn [bind M_monad]. rewrite Hmode.
  destruct (existsb (String.eqb "scale") (columns x)); cbn.
  - exists TypeError. split; [reflexivity | now right].
  - exists AttributeError. split; [reflexivity | now left].
Qed.

(** [predict] is affine in the rows of [x]. *)
Lemma predict_affine (me : TobitModel T) (x : ndarray2 T) (c : list T) (i : T) :
  coef_ me = Some c ->
  intercept_ me = Some i ->
  ncols x = length c ->
  predict me x = inr (map (fun row => add i (inner row c)) (rows x)).
Proof.
  intros Hc Hi Hshape. unfold predict. rewrite Hc, Hi.
  cbn [need bind res_monad ret]. unfold dot_mv. rewrite Hshape, Nat.eqb_refl.
  cbn [bind res_monad ret]. now rewrite map_map.
Qed.

(** [score] applies the metric to the responses and [np.dot(x, coef_)]. *)
Lemma score_of_dot (me : TobitModel T) (x : ndarray2 T) (y c : list T)
    (metric : list T -> list T -> res T) :
  coef_ me = Some c ->
  ncols x = length c ->
  score me x y (Some metric) = metric y (map (fun row => inner row c) (rows x))
  /\ score me x y None
     = mean_absolute_error y (map (fun row => inner row c) (rows x)).
Proof.
  intros Hc Hshape. unfold score. rewrite Hc.
  cbn [need bind res_monad ret]. unfold dot_mv. rewrite Hshape, Nat.eqb_refl.
  split; reflexivity.
Qed.

(** What a fit with the intercept enabled leaves in the instance when it
    returns: entry 1 of the final parameter vector as [intercept_], the
    entries from 1 up to the last as [coef_], the last as [sigma_]. *)
Lemma fit_assigns_entry_one (ext : Collaborators T) (x : DataFrame T)
    (y : Series T) (cens : list Z) (verbose : bool) (w w' : world T) :
  fit_intercept (self w) = true ->
  fit ext x y cens verbose w = (inr tt, w') ->
  exists (result : OptimizeResult T) (s : T),
    intercept_ (self w') = nth_error (res_x result) 1
    /\ coef_ (self w') = Some (inner_slice (res_x result))
    /\ sigma_ (self w') = Some s
    /\ last_entry (res_x result) = inr s.
Proof.
  intros Hmode Hrun. unfold fit in Hrun.
  cbn [bind M_monad ret] in Hrun.
  unfold gets, lift_res, emit, assign, modify, with_log in Hrun.
  rewrite Hmode in Hrun.
  repeat run_step Hrun.
  destruct (split_left_right_censored d y cens (out w)) as [r' log'].
  injection E3 as _ <-. cbn [self out] in *.
  assert (Hw1 : self w1 = self w) by (destruct verbose; injection E6 as _ <-; reflexivity).
  rewrite Hw1, Hmode in E9.
  destruct (index (res_x o) 1) as [e | x_1] eqn:Ex1; [discriminate E9 |].
  injection E9 as _ <-. injection Hrun as <-.
  exists o, t0. cbn [self intercept_ coef_ sigma_ set_sigma_ set_coef_ set_intercept_].
  split; [| split; [reflexivity | split; [reflexivity | exact E11]]].
  unfold index in Ex1. destruct (nth_error (res_x o) 1); [| discriminate Ex1].
  now injection Ex1 as ->.
Qed.

Lemma broadcast_same_length (f : T -> T -> T) (u v : list T) :
  length u = length v -> broadcast f u v = inr (zip_with f u v).
Proof. intros E. unfold broadcast. now rewrite E, Nat.eqb_refl. Qed.

Lemma index_nth_error (l : list T) (i : nat) (a : T) :
  index l i = inr a <-> nth_error l i = Some a.
Proof.
  unfold index. destruct (nth_error l i); split; intros H;
    try discriminate H; now injection H as ->.
Qed.

Lemma length_zip_with (f : T -> T -> T) (u : list T) :
  forall v : list T, length u = length v -> length (zip_with f u v) = length u.
Proof.
  induction u as [| a u IH]; intros [| b v] E; try discriminate E; cbn;
    [reflexivity |].
  f_equal. apply IH. now injection E.
Qed.

Lemma nth_error_zip_with (f : T -> T -> T) (i : nat) (a b : T) :
  forall u v : list T,
    nth_error u i = Some a -> nth_error v i = Some b ->
    nth_error (zip_with f u v) i = Some (f a b).
Proof.
  induction i as [| i IH]; intros [| a' u] [| b' v] Hu Hv;
    try discriminate Hu; try discriminate Hv; cbn in *.
  - congruence.
  - now apply IH.
Qed.

Lemma length_inner_slice (l : list T) : length (inner_slice l) = length l - 2.
Proof.
  unfold inner_slice, but_last. destruct l as [| a l]; [reflexivity |].
  cbn [tl length]. destruct l as [| b l]; [reflexivity |].
  rewrite removelast_firstn_len, length_firstn. cbn [length]. lia.
Qed.

Lemma nth_error_removelast (l : list T) :
  forall i : nat, S i < length l -> nth_error (removelast l) i = nth_error l i.
Proof.
  induction l as [| a l IH]; intros i Hi; [cbn in Hi; lia |].
  destruct l as [| b l]; [cbn in Hi; lia |].
  destruct i as [| i]; [reflexivity |].
  change (removelast (a :: b :: l)) with (a :: removelast (b :: l)).
  cbn [nth_error]. apply IH. cbn [length] in *. lia.
Qed.

(** Row [i] of a column of the table, built as [l[0]] followed by [l[1:-1]],
    is entry [i] of [l]: only the last entry of [l] is in no row. *)
Lemma nth_error_head_inner_slice (l : list T) (a : T) (i : nat) :
  nth_error l 0 = Some a ->
  S i < length l ->
  nth_error (a :: inner_slice l) i = nth_error l i.
Proof.
  intros H0 Hi. destruct l as [| a' l]; [discriminate H0 |].
  injection H0 as ->. destruct i as [| i]; [reflexivity |].
  cbn [nth_error inner_slice tl]. unfold but_last.
  apply nth_error_removelast. cbn [length] in Hi. lia.
Qed.

Lemma maybe_repeat_same_length (arr : list T) (index : list string) :
  length arr = length index -> maybe_repeat arr index = arr.
Proof.
  intros E. destruct arr as [| a [| b arr]]; try reflexivity.
  cbn [maybe_repeat]. cbn [length] in E. now rewrite E, Nat.eqb_refl.
Qed.

Lemma maybe_repeat_map (f : T -> T) (arr : list T) (index : list string) :
  maybe_repeat (map f arr) index = map f (maybe_repeat arr index).
Proof.
  destruct arr as [| a [| b arr]]; try reflexivity.
  cbn [map maybe_repeat]. destruct (Nat.eqb 1 (length index)); [reflexivity |].
  now rewrite map_repeat.
Qed.

Lemma make_summary_same_length (cols : list (string * list T))
    (index : list string) :
  Forall (fun c => length (snd c) = length index) cols ->
  make_summary cols index = inr cols.
Proof.
  intros Hall. unfold make_summary.
  assert (Hmap : map (fun c => (fst c, maybe_repeat (snd c) index)) cols = cols).
  { induction Hall as [| [k v] cols Hc Hall IH]; [reflexivity |].
    cbn [map fst snd] in *. now rewrite IH, maybe_repeat_same_length. }
  rewrite Hmap.
  assert (Hok : forallb (fun c => Nat.eqb (length (snd c)) (length index)) cols
                = true).
  { apply forallb_forall. intros c Hin. apply Nat.eqb_eq.
    revert c Hin. now apply Forall_forall. }
  now rewrite Hok.
Qed.

Lemma report_column_of (w : world T) (summary : list (string * list T))
    (col : string) :
  last_report (out w) = Some summary ->
  report_column w col
  = match find (fun c => String.eqb (fst c) col) summary with
    | Some c => Some (snd c)
    | None => None
    end.
Proof. intros H. unfold report_column. now rewrite H. Qed.

(** A fit with the intercept enabled, followed forward: when the
    collaborators return, the optimizer's final parameters have an entry 1,
    and their inner entries and those of the standard errors are one per
    column of the frame, [fit] returns, with the attributes and the table
    as follows. *)
Lemma fit_run_forward (ext : Collaborators T) (x : DataFrame T) (y : Series T)
    (cens : list Z) (verbose : bool) (w : world T)
    (b0 y_pred resid : list T) (xs : list (option (ndarray2 T)))
    (ys : list (option (squeezed T))) (log1 : list (event T))
    (result : OptimizeResult T) (b0_0 x_1 s se_0 : T) :
  fit_intercept (self w) = true ->
  ~ In "intercept"%string (columns x) ->
  lr_fit ext (with_intercept x) y = inr b0 ->
  lr_predict ext b0 (with_intercept x) = inr y_pred ->
  series_sub (svalues y) y_pred = inr resid ->
  split_left_right_censored (with_intercept x) y cens (out w)
  = (inr (xs, ys), log1) ->
  minimize ext (fun params => tobit_neg_log_likelihood xs ys params)
               (fun params => tobit_neg_log_likelihood_der xs ys params)
               (b0 ++ [sqrtv (np_var resid)]) verbose = inr result ->
  nth_error b0 0 = Some b0_0 ->
  nth_error (res_x result) 1 = Some x_1 ->
  last_entry (res_x result) = inr s ->
  nth_error (std_errors (res_hess_inv result)) 0 = Some se_0 ->
  length (inner_slice (res_x result)) = length (columns x) ->
  length (inner_slice (std_errors (res_hess_inv result))) = length (columns x) ->
  exists w',
    fit ext x y cens verbose w = (inr tt, w')
    /\ self w' = set_sigma_ s (set_coef_ (inner_slice (res_x result))
                   (set_intercept_ x_1 (set_ols_intercept b0_0
                      (set_ols_coef_ (tl b0) (self w)))))
    /\ last_report (out w')
       = Some (summary_table x_1 se_0 (inner_slice (res_x result))
                 (inner_slice (std_errors (res_hess_inv result)))).
Proof.
  intros Hmode Hcol Hlr Hpred Hres Hsplit Hmin Hb0 Hx1 Hs Hse Hc Hcs.
  apply index_nth_error in Hb0, Hx1, Hse.
  assert (Hins : frame_insert0 x "intercept" one = inr (with_intercept x)).
  { unfold frame_insert0.
    destruct (existsb (String.eqb "intercept") (columns x)) eqn:Hex;
      [| reflexivity].
    apply existsb_exists in Hex. destruct Hex as [c [Hin Heq]].
    apply String.eqb_eq in Heq. subst c. now elim Hcol. }
  unfold fit. cbn [bind M_monad ret].
  unfold gets, lift_res, emit, assign, modify, with_log.
  rewrite Hmode, Hins, Hlr, Hpred, Hres, Hsplit. cbn [self out].
  rewrite Hmin.
  assert (Hz : length (inner_slice (res_x result))
               = length (inner_slice (std_errors (res_hess_inv result))))
    by congruence.
  assert (Hz' : length (inner_slice (res_x result))
                = length (map (mul c1_96)
                              (inner_slice (std_errors (res_hess_inv result)))))
    by (rewrite length_map; congruence).
  destruct verbose; cbn [self out];
    rewrite Hb0; fit_simpl; rewrite Hmode, Hx1; fit_simpl;
    rewrite Hs; fit_simpl; rewrite Hse; fit_simpl; rewrite Hmode; fit_simpl;
    rewrite (broadcast_same_length _ _ _ Hz), !(broadcast_same_length _ _ _ Hz');
    (rewrite make_summary_same_length;
     [| repeat (apply Forall_cons;
                [cbn [snd length map];
                 rewrite ?length_map, ?length_zip_with, ?length_map
                   by (rewrite ?length_map; congruence);
                 congruence |]);
        apply Forall_nil ]);
    (eexists; split; [reflexivity | split; [reflexivity |]]);
    cbn [out]; unfold last_report; rewrite fold_left_app; reflexivity.
Qed.

(** The same from the shapes SciPy's BFGS gives its result: as many final
    parameters as the frame has columns, plus the constant and the scale,
    and as many diagonal entries in the inverse curvature. *)
Lemma fit_run_shapes (ext : Collaborators T) (x : DataFrame T) (y : Series T)
    (cens : list Z) (verbose : bool) (w : world T)
    (b0 y_pred resid : list T) (xs : list (option (ndarray2 T)))
    (ys : list (option (squeezed T))) (log1 : list (event T))
    (result : OptimizeResult T) :
  fit_intercept (self w) = true ->
  ~ In "intercept"%string (columns x) ->
  lr_fit ext (with_intercept x) y = inr b0 ->
  lr_predict ext b0 (with_intercept x) = inr y_pred ->
  series_sub (svalues y) y_pred = inr resid ->
  split_left_right_censored (with_intercept x) y cens (out w)
  = (inr (xs, ys), log1) ->
  minimize ext (fun params => tobit_neg_log_likelihood xs ys params)
               (fun params => tobit_neg_log_likelihood_der xs ys params)
               (b0 ++ [sqrtv (np_var resid)]) verbose = inr result ->
  b0 <> [] ->
  length (res_x result) = length (columns x) + 2 ->
  length (np_diag (res_hess_inv result)) = length (res_x result) ->
  exists w' x_1 se_0,
    fit ext x y cens verbose w = (inr tt, w')
    /\ nth_error (res_x result) 1 = Some x_1
    /\ nth_error (std_errors (res_hess_inv result)) 0 = Some se_0
    /\ length (inner_slice (res_x result)) = length (columns x)
    /\ length (inner_slice (std_errors (res_hess_inv result)))
       = length (columns x)
    /\ last_report (out w')
       = Some (summary_table x_1 se_0 (inner_slice (res_x result))
                 (inner_slice (std_errors (res_hess_inv result)))).
Proof.
  intros Hmode Hcol Hlr Hpred Hres Hsplit Hmin Hb0 Hx Hd.
  assert (Hse : length (std_errors (res_hess_inv result))
                = length (columns x) + 2)
    by (unfold std_errors; rewrite length_map; congruence).
  assert (Hb : exists b0_0, nth_error b0 0 = Some b0_0)
    by (destruct b0 as [| b0_0 b0']; [now elim Hb0 | now exists b0_0]).
  destruct Hb as [b0_0 Hb].
  assert (Hx1 : exists x_1, nth_error (res_x result) 1 = Some x_1).
  { destruct (nth_error (res_x result) 1) as [x_1 |] eqn:E; [now exists x_1 |].
    apply nth_error_None in E. lia. }
  destruct Hx1 as [x_1 Hx1].
  assert (Hse0 : exists se_0,
             nth_error (std_errors (res_hess_inv result)) 0 = Some se_0).
  { destruct (nth_error (std_errors (res_hess_inv result)) 0) as [se_0 |] eqn:E;
      [now exists se_0 |].
    apply nth_error_None in E. lia. }
  destruct Hse0 as [se_0 Hse0].
  assert (Hs : exists s, last_entry (res_x result) = inr s).
  { destruct (res_x result) as [| a l]; [cbn in Hx; lia |].
    eexists. reflexivity. }
  destruct Hs as [s Hs].
  assert (Hc : length (inner_slice (res_x result)) = length (columns x))
    by (rewrite length_inner_slice; lia).
  assert (Hcs : length (inner_slice (std_errors (res_hess_inv result)))
                = length (columns x))
    by (rewrite length_inner_slice; lia).
  destruct (fit_run_forward ext x y cens verbose w b0 y_pred resid
              xs ys log1 result b0_0 x_1 s se_0)
    as (w' & Hrun & _ & Hrep); try assumption.
  exists w', x_1, se_0.
  repeat (split; [assumption |]). exact Hrep.
Qed.

End FitFacts.

Module FitExamples.

Import RealModel Examples.
Local Open Scope R_scope.

Lemma C10_witness :
  exists e : exn,
    fit toy_ext toy_x toy_y toy_cens false (mk_world (init false) [])
    = (inl e, mk_world (init false) [])
    /\ (e = AttributeError \/ e = TypeError).
Proof.
  apply (@C10_no_intercept_mode_raises R R_numeric R_special).
  reflexivity.
Defined.

(** C3 fails on the code.  The optimizer returns the final parameter vector
    (2, 3, 1): intercept 2, coefficient 3, scale 1.  [fit] returns normally
    and leaves 3, the entry at index 1, as [intercept_]; the coefficients
    and the scale are as the claim says. *)
Theorem C3_intercept_is_entry_one :
  (forall f g params0 verbose,
      option_map (@res_x R)
        (match minimize toy_ext f g params0 verbose with
         | inr result => Some result
         | inl _ => None
         end) = Some [2; 3; 1])
  /\ fst toy_run = inr tt
  /\ intercept_ (self (snd toy_run)) = Some 3
  /\ coef_ (self (snd toy_run)) = Some [3]
  /\ sigma_ (self (snd toy_run)) = Some 1
  /\ ols_intercept (self (snd toy_run)) = Some 0.
Proof.
  unfold toy_run.
  split; [intros; reflexivity |].
  repeat split; lazy; reflexivity.
Qed.

(** C8 fails on the code.  For the fitted model with intercept 1 and
    coefficient 2, and the row x = (3) with response 7: [predict] returns
    1 + 3 * 2 = 7, whose mean absolute error against the response is 0,
    while [score] with the default metric returns 1, the mean absolute error
    of np.dot(x, coef_) = 6, the intercept left out. *)
Theorem C8_score_omits_intercept :
  predict fitted new_x = inr [1 + (0 + 3 * 2)]
  /\ mean_absolute_error new_y [1 + (0 + 3 * 2)] = inr 0
  /\ score fitted new_x new_y None = inr 1.
Proof.
  split; [reflexivity |]. split.
  - unfold mean_absolute_error, new_y. cbn. f_equal.
    replace (1 + (0 + 3 * 2) - 7) with 0 by lra. rewrite Rabs_R0. lra.
  - unfold score, mean_absolute_error, fitted, new_x, new_y. cbn. f_equal.
    rewrite Rabs_left by lra. lra.
Qed.

End FitExamples.

(* ================================================================== *)
(** ** The gradient over the reals *)

Module RealGradient.

Import RealModel RealSpec Examples RealObjective.
Local Open Scope R_scope.

Lemma zip_with_map_same {A : Type} (op : R -> R -> R) (f g : A -> R) (l : list A) :
  zip_with op (map f l) (map g l) = map (fun a => op (f a) (g a)) l.
Proof. induction l as [| a l IH]; simpl; [reflexivity | now rewrite IH]. Qed.

Lemma repeat_map_seq (k : nat) : repeat 0 k = map (fun _ => 0) (seq 0 k).
Proof.
  generalize 0%nat. induction k as [| k IH]; intros n; simpl;
    [reflexivity | now rewrite (IH (S n))].
Qed.

Lemma list_map_seq (l : list R) :
  l = map (fun j => nth j l 0) (seq 0 (length l)).
Proof.
  apply (nth_ext _ _ 0 0).
  - now rewrite length_map, length_seq.
  - intros j Hj.
    rewrite (nth_indep (map (fun j0 => nth j0 l 0) (seq 0 (length l))) 0
                       ((fun j0 => nth j0 l 0) 0%nat))
      by now rewrite length_map, length_seq.
    rewrite (map_nth (fun j0 => nth j0 l 0)), seq_nth by exact Hj. reflexivity.
Qed.

Lemma vm_fold (k : nat) (X : list (list R)) :
  Forall (fun row => length row = k) X ->
  forall (v : list R) (F : nat -> R),
    fold_left (fun acc '(c, row) => zip_with add acc (map (mul c) row))
              (combine v X) (map F (seq 0 k))
    = map (fun j => F j + column_sum v X j) (seq 0 k).
Proof.
  induction 1 as [| row X Hrow _ IH]; intros v F.
  - destruct v; simpl; apply map_ext; intros j; unfold column_sum; simpl; ring.
  - destruct v as [| c v]; simpl.
    + apply map_ext; intros j; unfold column_sum; simpl; ring.
    + assert (E : map (Rmult c) row = map (fun j => c * nth j row 0) (seq 0 k)).
      { rewrite (list_map_seq (map (Rmult c) row)), length_map, Hrow.
        apply map_ext_in. intros j Hj. apply in_seq in Hj.
        rewrite (nth_indep _ 0 (Rmult c 0)) by (rewrite length_map; lia).
        now rewrite (map_nth (Rmult c)). }
      real_ops. rewrite E, zip_with_map_same, IH.
      apply map_ext. intros j.
      unfold column_sum. cbn [combine map Rsum fold_right fst snd].
      real_ops. unfold Rsum. ring.
Qed.

Lemma dot_vm_columns (v : list R) (X : ndarray2 R) :
  length v = length (rows X) ->
  Forall (fun row => length row = ncols X) (rows X) ->
  dot_vm v X = inr (map (column_sum v (rows X)) (seq 0 (ncols X))).
Proof.
  intros Hlen Hwf. unfold dot_vm. rewrite Hlen, Nat.eqb_refl.
  cbn [ret res_monad]. f_equal. real_ops.
  rewrite repeat_map_seq, (vm_fold _ _ Hwf).
  apply map_ext. intros j. ring.
Qed.

Lemma isub_maps (F G : nat -> R) (k : nat) :
  isub (map F (seq 0 k)) (map G (seq 0 k))
  = inr (map (fun j => F j - G j) (seq 0 k)).
Proof.
  unfold isub. rewrite !length_map, Nat.eqb_refl.
  cbn [ret res_monad]. now rewrite zip_with_map_same.
Qed.

Lemma iadd_maps (F G : nat -> R) (k : nat) :
  iadd (map F (seq 0 k)) (map G (seq 0 k))
  = inr (map (fun j => F j + G j) (seq 0 k)).
Proof.
  unfold iadd. rewrite !length_map, Nat.eqb_refl.
  cbn [ret res_monad]. now rewrite zip_with_map_same.
Qed.

(** The inverse Mills ratios of the code, entry by entry. *)
Lemma frac_ratio (zs : list R) :
  map np_exp (zip_with sub (map norm_logpdf zs) (map log_ndtr zs)) = map ratio zs.
Proof.
  rewrite zip_with_map_same, map_map. apply map_ext. intros z.
  unfold ratio. rewrite <- norm_logpdf_ln_phi. reflexivity.
Qed.

Lemma inner_maps (f g : R -> R) (l : list R) :
  inner (map f l) (map g l) = Rsum (map (fun z => f z * g z) l).
Proof.
  unfold inner. now rewrite np_sum_Rsum, zip_with_map_same.
Qed.

Lemma rows_of_rectangular (x : DataFrame R) (cens : list Z) (v : Z) :
  rectangular x ->
  Forall (fun row => length row = length (columns x)) (rows_of x cens v).
Proof.
  unfold rectangular, rows_of. generalize (series_eq cens v) as mask.
  intros mask Hwf. revert mask.
  induction Hwf as [| row X Hrow _ IH]; intros [| m mask]; simpl; try constructor.
  destruct m; [constructor; [exact Hrow | apply IH] | apply IH].
Qed.

(** A column of [np.dot(g(z), X / s)] over a group, observation by
    observation. *)
Lemma column_sum_zip_l (g : R -> R) (b : list R) (s : R) (j : nat) (X : list (list R)) :
  forall Y : list R,
    column_sum (map g (map (fun v => v / s)
                           (zip_with Rminus Y (map (fun row => inner row b) X))))
               (map (map (fun a => a / s)) X) j
    = Rsum (map (fun o => g (z_left b s o) * (nth j (fst o) 0 / s)) (combine X Y)).
Proof.
  unfold column_sum, z_left.
  induction X as [| r X IH]; intros [| a Y]; simpl; try reflexivity.
  rewrite IH, inner_Rdot. f_equal. f_equal.
  replace 0 with (0 / s) at 1 by (unfold Rdiv; ring).
  now rewrite (map_nth (fun a0 => a0 / s)).
Qed.

Lemma column_sum_zip_r (g : R -> R) (b : list R) (s : R) (j : nat) (X : list (list R)) :
  forall Y : list R,
    column_sum (map g (map (fun v => v / s)
                           (zip_with Rminus (map (fun row => inner row b) X) Y)))
               (map (map (fun a => a / s)) X) j
    = Rsum (map (fun o => g (z_right b s o) * (nth j (fst o) 0 / s)) (combine X Y)).
Proof.
  unfold column_sum, z_right.
  induction X as [| r X IH]; intros [| a Y]; simpl; try reflexivity.
  rewrite IH, inner_Rdot. f_equal. f_equal.
  replace 0 with (0 / s) at 1 by (unfold Rdiv; ring).
  now rewrite (map_nth (fun a0 => a0 / s)).
Qed.

Lemma column_sum_resid_l (g : R -> R) (x : DataFrame R) (y : Series R)
    (cens : list Z) (b : list R) (s : R) (v : Z) (j : nat) :
  column_sum (map g (map (fun a => a / s) (resid_l x y cens b v)))
             (map (map (fun a => a / s)) (rows_of x cens v)) j
  = Rsum (map (fun o => g (z_left b s o) * (nth j (fst o) 0 / s))
              (observations x y cens v)).
Proof.
  unfold resid_l, resp_of, rows_of, observations. rewrite select_combine.
  apply column_sum_zip_l.
Qed.

Lemma column_sum_resid_r (g : R -> R) (x : DataFrame R) (y : Series R)
    (cens : list Z) (b : list R) (s : R) (v : Z) (j : nat) :
  column_sum (map g (map (fun a => a / s) (resid_r x y cens b v)))
             (map (map (fun a => a / s)) (rows_of x cens v)) j
  = Rsum (map (fun o => g (z_right b s o) * (nth j (fst o) 0 / s))
              (observations x y cens v)).
Proof.
  unfold resid_r, resp_of, rows_of, observations. rewrite select_combine.
  apply column_sum_zip_r.
Qed.

(** [np.dot(v, X / s)] for a vector [v] over the records of a group. *)
Lemma dot_vm_group (x : DataFrame R) (y : Series R) (cens : list Z) (s : R) (v : Z)
    (u : list R) :
  rectangular x ->
  length u = length (rows_of x cens v) ->
  dot_vm u (mat_div (mk_ndarray2 (length (columns x))
                                 (select (series_eq cens v) (data x))) s)
  = inr (map (column_sum u (map (map (fun a => a / s)) (rows_of x cens v)))
             (seq 0 (length (columns x)))).
Proof.
  intros Hwf Hu. rewrite dot_vm_columns.
  - reflexivity.
  - cbn [mat_div rows]. now rewrite length_map.
  - cbn [mat_div rows ncols]. apply Forall_map.
    eapply Forall_impl; [| apply (rows_of_rectangular x cens v Hwf)].
    cbn. intros row Hrow. now rewrite length_map.
Qed.

Lemma length_resid_l (x : DataFrame R) (y : Series R) (cens : list Z) (b : list R) (v : Z) :
  length (data x) = length cens ->
  length (svalues y) = length cens ->
  length (resid_l x y cens b v) = length (rows_of x cens v).
Proof.
  intros Hx Hy. unfold resid_l.
  assert (H : forall u w : list R, length u = length w -> length (zip_with sub u w) = length w).
  { induction u as [| a u IH]; intros [| c w] E; simpl in *; try discriminate; auto. }
  rewrite H; [apply length_map |].
  rewrite length_map. unfold resp_of, rows_of. now apply length_select_series_eq.
Qed.

Lemma length_resid_r (x : DataFrame R) (y : Series R) (cens : list Z) (b : list R) (v : Z) :
  length (data x) = length cens ->
  length (svalues y) = length cens ->
  length (resid_r x y cens b v) = length (rows_of x cens v).
Proof.
  intros Hx Hy. unfold resid_r.
  assert (H : forall u w : list R, length u = length w -> length (zip_with sub u w) = length u).
  { induction u as [| a u IH]; intros [| c w] E; simpl in *; try discriminate; auto. }
  rewrite H; [apply length_map |].
  rewrite length_map. unfold resp_of, rows_of. now apply length_select_series_eq.
Qed.

Lemma column_sum_resid_mid (x : DataFrame R) (y : Series R)
    (cens : list Z) (b : list R) (s : R) (v : Z) (j : nat) :
  column_sum (map (fun a => a / s) (resid_l x y cens b v))
             (map (map (fun a => a / s)) (rows_of x cens v)) j
  = Rsum (map (fun o => z_left b s o * (nth j (fst o) 0 / s))
              (observations x y cens v)).
Proof.
  rewrite <- (map_id (map (fun a => a / s) (resid_l x y cens b v))).
  apply (column_sum_resid_l (fun z => z)).
Qed.

Lemma inner_ratio_l (x : DataFrame R) (y : Series R) (cens : list Z)
    (b : list R) (s : R) (v : Z) :
  inner (map ratio (map (fun a => a / s) (resid_l x y cens b v)))
        (map (fun a => a / s) (resid_l x y cens b v))
  = Rsum (map (fun o => ratio (z_left b s o) * z_left b s o) (observations x y cens v)).
Proof.
  rewrite <- (map_id (map (fun a => a / s) (resid_l x y cens b v))) at 2.
  rewrite inner_maps, map_map.
  now rewrite (map_resid_l (fun r => ratio (r / s) * (r / s))).
Qed.

Lemma inner_ratio_r (x : DataFrame R) (y : Series R) (cens : list Z)
    (b : list R) (s : R) (v : Z) :
  inner (map ratio (map (fun a => a / s) (resid_r x y cens b v)))
        (map (fun a => a / s) (resid_r x y cens b v))
  = Rsum (map (fun o => ratio (z_right b s o) * z_right b s o) (observations x y cens v)).
Proof.
  rewrite <- (map_id (map (fun a => a / s) (resid_r x y cens b v))) at 2.
  rewrite inner_maps, map_map.
  now rewrite (map_resid_r (fun r => ratio (r / s) * (r / s))).
Qed.

Lemma mid_sigma_sum (x : DataFrame R) (y : Series R) (cens : list Z)
    (b : list R) (s : R) (v : Z) :
  np_sum (map (fun z => z * z - 1) (map (fun a => a / s) (resid_l x y cens b v)))
  = Rsum (map (fun o => z_left b s o * z_left b s o - 1) (observations x y cens v)).
Proof.
  rewrite np_sum_Rsum, map_map.
  now rewrite (map_resid_l (fun r => r / s * (r / s) - 1)).
Qed.

(** The gradient on a partitioned dataset is the vector of the specification. *)
Lemma tobit_der_real (x : DataFrame R) (y : Series R) (cens : list Z)
    (beta : list R) (sigma : R) :
  length (data x) = length cens ->
  length (svalues y) = length cens ->
  length (columns x) = length beta ->
  rectangular x ->
  tobit_neg_log_likelihood_der (fst (partitioned x y cens)) (snd (partitioned x y cens))
                               (beta ++ [sigma])
  = inr (gradient_spec x y cens beta sigma).
Proof.
  intros Hx Hy Hb Hwf.
  unfold tobit_neg_log_likelihood_der, partitioned, gradient_spec.
  cbn [fst snd unpack3 bind res_monad ret].
  rewrite but_last_app, last_entry_app.
  unfold y_group, x_group.
  change (@zero R R_numeric) with 0. rewrite repeat_map_seq, <- Hb.
  destruct (in_counts (-1) (value_counts cens)) eqn:Hl;
    [ group_present Hx Hy Hb;
      fold (resp_of y cens (-1)); fold (resid_l x y cens beta (-1));
      rewrite frac_ratio;
      rewrite (dot_vm_group x y cens sigma (-1) _ Hwf)
        by (rewrite !length_map; now apply length_resid_l);
      cbn [bind res_monad ret]; rewrite isub_maps | ];
  (destruct (in_counts 1 (value_counts cens)) eqn:Hr;
    [ group_present Hx Hy Hb;
      fold (resp_of y cens 1); fold (resid_r x y cens beta 1);
      rewrite frac_ratio;
      rewrite (dot_vm_group x y cens sigma 1 _ Hwf)
        by (rewrite !length_map; now apply length_resid_r);
      cbn [bind res_monad ret]; rewrite iadd_maps | ]);
  (destruct (in_counts 0 (value_counts cens)) eqn:Hm;
    [ group_present Hx Hy Hb;
      fold (resp_of y cens 0); fold (resid_l x y cens beta 0);
      rewrite (dot_vm_group x y cens sigma 0 _ Hwf)
        by (rewrite !length_map; now apply length_resid_l);
      cbn [bind res_monad ret]; rewrite iadd_maps | ]);
  cbn [bind res_monad ret]; real_ops;
  unfold beta_entry, sigma_accumulated;
  rewrite ?inner_ratio_l, ?inner_ratio_r, ?mid_sigma_sum;
  rewrite ?(observations_absent x y cens (-1)) by assumption;
  rewrite ?(observations_absent x y cens 1) by assumption;
  rewrite ?(observations_absent x y cens 0) by assumption;
  (do 2 f_equal; f_equal;
   [ apply map_ext; intros j;
     rewrite ?column_sum_resid_l, ?column_sum_resid_r, ?column_sum_resid_mid;
     cbn [map Rsum fold_right]; ring
   | f_equal; cbn [map Rsum fold_right]; unfold Rdiv; ring ]).
Qed.

(** C2.  For every dataset (rectangular frame, responses and codes of one
    length), its groups as the partitioner returns them, and every parameter
    vector (beta, sigma) with one coefficient per column, the gradient
    evaluator returns the negation of the whole vector whose entry j is
    - sum_left ratio_i * x_ij / sigma + sum_right ratio_i * x_ij / sigma
    + sum_mid z_i * x_ij / sigma, and whose last entry is the accumulator
    - sum_left ratio_i * z_i - sum_right ratio_i * z_i + sum_mid (z_i^2 - 1)
    divided by sigma, with ratio_i = exp(log phi(z_i) - log Phi(z_i)). *)
Theorem C2_gradient_value (x : DataFrame R) (y : Series R) (cens : list Z)
    (beta : list R) (sigma : R) (log log' : list (event R))
    (xs : list (option (ndarray2 R))) (ys : list (option (squeezed R))) :
  length (data x) = length cens ->
  length (svalues y) = length cens ->
  length (columns x) = length beta ->
  rectangular x ->
  split_left_right_censored x y cens log = (inr (xs, ys), log') ->
  tobit_neg_log_likelihood_der xs ys (beta ++ [sigma])
  = inr (gradient_spec x y cens beta sigma).
Proof.
  intros Hx Hy Hb Hwf Hrun.
  destruct (split_partitioned x y cens log log' xs ys Hx Hy Hrun) as [-> ->].
  now apply tobit_der_real.
Qed.

Lemma C2_witness :
  tobit_neg_log_likelihood_der
    [Some (mk_ndarray2 1 [[1]; [4]]); Some (mk_ndarray2 1 [[2]]); Some (mk_ndarray2 1 [[3]])]
    [Some (Arr1 [0; 0]); Some (Arr0 5); Some (Arr0 9)]
    ([2] ++ [1])
  = inr (gradient_spec tiny_x tiny_y tiny_cens [2] 1).
Proof.
  apply (C2_gradient_value tiny_x tiny_y tiny_cens [2] 1 [] []); try reflexivity.
  unfold rectangular, tiny_x. cbn [data columns].
  repeat (apply Forall_cons; [reflexivity |]). apply Forall_nil.
Defined.

End RealGradient.

(* ================================================================== *)
(** ** A negative proposed scale, over the reals *)

Module RealFloor.

Import RealModel RealSpec Examples RealObjective RealGradient.
Local Open Scope R_scope.

(** C4, amended.  For a negative proposed scale the objective floors sigma
    at the resolution inside the logarithm only: math.log receives
    max(resolution, sigma) = resolution and raises no domain error, and the
    objective returns the negated log-likelihood with log(resolution) for the
    term "log sigma", the residuals still divided by the sigma proposed.
    The gradient has no floor at all: it returns the vector of its formula
    in the sigma proposed, every division by that sigma itself. *)
Theorem C4_floor_inside_log_only (x : DataFrame R) (y : Series R) (cens : list Z)
    (beta : list R) (sigma : R) (log log' : list (event R))
    (xs : list (option (ndarray2 R))) (ys : list (option (squeezed R))) :
  length (data x) = length cens ->
  length (svalues y) = length cens ->
  length (columns x) = length beta ->
  rectangular x ->
  split_left_right_censored x y cens log = (inr (xs, ys), log') ->
  sigma < 0 ->
  math_log (pymax resolution sigma) = inr (Rpower.ln resolution)
  /\ tobit_neg_log_likelihood xs ys (beta ++ [sigma])
     = inr (- loglik_with (Rpower.ln resolution) x y cens beta sigma)
  /\ tobit_neg_log_likelihood_der xs ys (beta ++ [sigma])
     = inr (gradient_spec x y cens beta sigma).
Proof.
  intros Hx Hy Hb Hwf Hrun Hsigma.
  destruct (split_partitioned x y cens log log' xs ys Hx Hy Hrun) as [-> ->].
  pose proof resolution_pos as Hpos.
  assert (Hmax : Rmax resolution sigma = resolution) by (apply Rmax_left; lra).
  split; [| split].
  - now rewrite math_log_floor, Hmax.
  - rewrite tobit_nll_real by assumption. unfold loglik_floored. now rewrite Hmax.
  - now apply tobit_der_real.
Qed.

Lemma C4_witness :
  math_log (pymax resolution (- (1))) = inr (Rpower.ln resolution)
  /\ tobit_neg_log_likelihood
       [Some (mk_ndarray2 1 [[1]; [4]]); Some (mk_ndarray2 1 [[2]]); Some (mk_ndarray2 1 [[3]])]
       [Some (Arr1 [0; 0]); Some (Arr0 5); Some (Arr0 9)]
       ([2] ++ [- (1)])
     = inr (- loglik_with (Rpower.ln resolution) tiny_x tiny_y tiny_cens [2] (- (1)))
  /\ tobit_neg_log_likelihood_der
       [Some (mk_ndarray2 1 [[1]; [4]]); Some (mk_ndarray2 1 [[2]]); Some (mk_ndarray2 1 [[3]])]
       [Some (Arr1 [0; 0]); Some (Arr0 5); Some (Arr0 9)]
       ([2] ++ [- (1)])
     = inr (gradient_spec tiny_x tiny_y tiny_cens [2] (- (1))).
Proof.
  apply (C4_floor_inside_log_only tiny_x tiny_y tiny_cens [2] (- (1)) [] []);
    try reflexivity.
  - unfold rectangular. cbn [data columns tiny_x].
    repeat (apply Forall_cons; [reflexivity |]). apply Forall_nil.
  - lra.
Defined.

End RealFloor.

(* ================================================================== *)
(** ** [fit] over binary64: a negative inverse curvature *)

Module FloatFit.

Import FloatModel FloatExamples FloatFacts.
Local Open Scope float_scope.

(** C7, amended.  [fit] makes no check of the sign of the inverse curvature.
    For a fit with the intercept enabled whose collaborators return, the
    optimizer's result having the shapes BFGS gives it (one final parameter
    per column of the frame, plus the constant and the scale, and as many
    diagonal entries in the inverse curvature): when a diagonal entry is
    negative, [fit] raises nothing and returns; and where the entry is that
    of the constant or of a coefficient (index at most the number of
    columns), the standard error and the z-value it reports in that row are
    NaN, under every reading of the library functions. *)
Theorem C7_negative_curvature_gives_nan (ST : Special float)
    (ext : Collaborators float) (x : DataFrame float) (y : Series float)
    (cens : list Z) (verbose : bool) (w : world float)
    (b0 y_pred resid : list float) (xs : list (option (ndarray2 float)))
    (ys : list (option (squeezed float))) (log1 : list (event float))
    (result : OptimizeResult float) (i : nat) (d : float) :
  fit_intercept (self w) = true ->
  ~ In "intercept"%string (columns x) ->
  lr_fit ext (with_intercept x) y = inr b0 ->
  lr_predict ext b0 (with_intercept x) = inr y_pred ->
  series_sub (svalues y) y_pred = inr resid ->
  split_left_right_censored (with_intercept x) y cens (out w)
  = (inr (xs, ys), log1) ->
  minimize ext (fun params => tobit_neg_log_likelihood xs ys params)
               (fun params => tobit_neg_log_likelihood_der xs ys params)
               (b0 ++ [sqrtv (np_var resid)]) verbose = inr result ->
  b0 <> [] ->
  length (res_x result) = (length (columns x) + 2)%nat ->
  length (np_diag (res_hess_inv result)) = length (res_x result) ->
  nth_error (np_diag (res_hess_inv result)) i = Some d ->
  (d <? 0) = true ->
  exists (w' : world float) (se zs : list float),
    fit ext x y cens verbose w = (inr tt, w')
    /\ report_column w' "std err" = Some se
    /\ report_column w' "z" = Some zs
    /\ ((i <= length (columns x))%nat ->
        exists a b : float,
          nth_error se i = Some a /\ is_nan a = true
          /\ nth_error zs i = Some b /\ is_nan b = true).
Proof.
  intros Hmode Hcol Hlr Hpred Hres Hsplit Hmin Hb0 Hx Hd Hi Hneg.
  destruct (fit_run_shapes ext x y cens verbose w b0 y_pred resid xs ys log1
              result Hmode Hcol Hlr Hpred Hres Hsplit Hmin Hb0 Hx Hd)
    as (w' & x_1 & se_0 & Hrun & Hx1 & Hse0 & Hc & Hcs & Hrep).
  exists w', (se_0 :: inner_slice (std_errors (res_hess_inv result))),
         (div x_1 se_0
          :: zip_with div (inner_slice (res_x result))
                          (inner_slice (std_errors (res_hess_inv result)))).
  rewrite !(report_column_of w' _ _ Hrep).
  split; [exact Hrun |]. split; [reflexivity |]. split; [reflexivity |].
  intros Hrow.
  assert (Hlen : length (std_errors (res_hess_inv result))
                 = (length (columns x) + 2)%nat)
    by (unfold std_errors; rewrite length_map; congruence).
  assert (Hnan : nth_error (se_0 :: inner_slice (std_errors (res_hess_inv result))) i
                 = Some nan).
  { rewrite (nth_error_head_inner_slice _ _ _ Hse0) by lia.
    exact (negative_curvature_std_error _ _ _ Hi Hneg). }
  assert (Hest : exists e, nth_error (x_1 :: inner_slice (res_x result)) i = Some e).
  { destruct (nth_error (x_1 :: inner_slice (res_x result)) i) as [e |] eqn:E;
      [now exists e |].
    apply nth_error_None in E. cbn [length] in E. lia. }
  destruct Hest as [e He].
  exists nan, (div e nan).
  split; [exact Hnan |]. split; [reflexivity |]. split.
  - exact (nth_error_zip_with div i e nan
             (x_1 :: inner_slice (res_x result))
             (se_0 :: inner_slice (std_errors (res_hess_inv result))) He Hnan).
  - cbn [div float_numeric]. now rewrite div_nan.
Qed.

Lemma C7_witness :
  exists (w' : world float) (se zs : list float),
    @fit float float_numeric sample_special bad_curvature_ext ftoy_x ftoy_y
         ftoy_cens false (mk_world (init true) []) = (inr tt, w')
    /\ report_column w' "std err" = Some se
    /\ report_column w' "z" = Some zs
    /\ ((1 <= length (columns ftoy_x))%nat ->
        exists a b : float,
          nth_error se 1 = Some a /\ is_nan a = true
          /\ nth_error zs 1 = Some b /\ is_nan b = true).
Proof.
  eapply (C7_negative_curvature_gives_nan sample_special bad_curvature_ext
            ftoy_x ftoy_y ftoy_cens false (mk_world (init true) [])
            _ _ _ _ _ _ _ 1 (-1)).
  - reflexivity.
  - intros [H | []]. discriminate H.
  - reflexivity.
  - reflexivity.
  - reflexivity.
  - reflexivity.
  - reflexivity.
  - discriminate.
  - reflexivity.
  - reflexivity.
  - reflexivity.
  - reflexivity.
Defined.

End FloatFit.

(* ================================================================== *)
(** ** More on the partitioner *)

Section PartitionerMore.

Context {T : Type}.

Lemma any_censored_counts (cens : list Z) :
  (negb (in_counts (-1) (value_counts cens)) && negb (in_counts 1 (value_counts cens)))%bool
  = negb (any_censored cens).
Proof.
  rewrite !in_counts_value_counts. unfold any_censored.
  induction cens as [| c cens IH]; [reflexivity |].
  cbn [existsb]. rewrite !negb_orb in *. rewrite <- IH.
  destruct (Z.eqb c (-1)), (Z.eqb c 1); cbn; try reflexivity.
  now rewrite andb_false_r.
Qed.

(** The run of the partitioner on frames of one length, with its log. *)
Lemma split_run_log (x : DataFrame T) (y : Series T) (cens : list Z)
    (log : list (event T)) :
  length (data x) = length cens ->
  length (svalues y) = length cens ->
  split_left_right_censored x y cens log
  = (inr ([x_group x cens (-1); x_group x cens 0; x_group x cens 1],
          [y_group y cens (-1); y_group y cens 0; y_group y cens 1]),
     if any_censored cens then log else log ++ [no_censored_warning]).
Proof.
  intros Hx Hy. unfold split_left_right_censored.
  rewrite any_censored_counts.
  cbn [bind M_monad].
  destruct (any_censored cens); cbn [negb];
    unfold warn, modify; cbn [for_each bind M_monad ret];
    rewrite !(split_body_run _ _ _ _ _ _ Hx Hy); reflexivity.
Qed.

(** The partitioner warns exactly when no observation is censored, and
    writes nothing else: on frames of one length it returns the three groups,
    the log extended by the one warning when no code is -1 or 1 and left
    as it was otherwise. *)
Theorem split_warns_iff_uncensored (x : DataFrame T) (y : Series T) (cens : list Z)
    (log : list (event T)) :
  length (data x) = length cens ->
  length (svalues y) = length cens ->
  exists xs ys,
    split_left_right_censored x y cens log
    = (inr (xs, ys), if any_censored cens then log else log ++ [no_censored_warning]).
Proof.
  intros Hx Hy. do 2 eexists. apply (split_run_log x y cens log Hx Hy).
Qed.

Lemma invalid_not_counted (cens : list Z) (v : Z) :
  valid_code v ->
  Forall (fun c => ~ valid_code c) cens ->
  in_counts v (value_counts cens) = false.
Proof.
  intros Hv Hall. rewrite in_counts_value_counts.
  induction Hall as [| c cens Hc _ IH]; [reflexivity |].
  cbn [existsb]. rewrite IH, orb_false_r.
  destruct (Z.eqb_spec c v) as [-> | _]; [now elim Hc | reflexivity].
Qed.

Lemma split_run_no_valid (x : DataFrame T) (y : Series T) (cens : list Z)
    (log : list (event T)) :
  Forall (fun c => ~ valid_code c) cens ->
  split_left_right_censored x y cens log
  = (inr ([None; None; None], [None; None; None]), log ++ [no_censored_warning]).
Proof.
  intros Hall.
  assert (Hl : in_counts (-1) (value_counts cens) = false)
    by (apply invalid_not_counted; [left | exact Hall]; reflexivity).
  assert (Hm : in_counts 0 (value_counts cens) = false)
    by (apply invalid_not_counted; [right; left | exact Hall]; reflexivity).
  assert (Hr : in_counts 1 (value_counts cens) = false)
    by (apply invalid_not_counted; [right; right | exact Hall]; reflexivity).
  unfold split_left_right_censored, split_body. cbn [for_each bind M_monad ret].
  rewrite Hl, Hm, Hr. reflexivity.
Qed.

(** Without any code among -1, 0 and 1 (in particular on an empty code
    series) nothing is selected: whatever the frame and the responses are,
    and whatever their lengths, the partitioner returns [None] for all six
    entries and warns that nothing is censored. *)
Theorem split_without_valid_codes (x : DataFrame T) (y : Series T) (cens : list Z)
    (log : list (event T)) :
  Forall (fun c => ~ valid_code c) cens ->
  split_left_right_censored x y cens log
  = (inr ([None; None; None], [None; None; None]), log ++ [no_censored_warning]).
Proof. apply split_run_no_valid. Qed.

Lemma length_select_positions {A : Type} (cens : list Z) (v : Z) (l : list A) :
  length l = length cens ->
  length (select (series_eq cens v) l) = length (positions cens v).
Proof.
  intros Hl.
  pose proof (@select_positions A v cens l [] 0 eq_refl Hl) as H.
  apply (f_equal (@length _)) in H. now rewrite !length_map in H.
Qed.

Lemma y_group_shape (y : Series T) (cens : list Z) (v : Z) :
  length (svalues y) = length cens ->
  squeezed_shape (length (positions cens v)) (y_group y cens v).
Proof.
  intros Hy. unfold y_group. rewrite in_counts_value_counts.
  pose proof (positions_from_nil v cens 0) as Hnil. fold (positions cens v) in Hnil.
  pose proof (length_select_positions cens v (svalues y) Hy) as Hlen.
  destruct (existsb (fun c => Z.eqb c v) cens).
  - destruct (select (series_eq cens v) (svalues y)) as [| a [| b l]];
      cbn [length] in Hlen; rewrite <- Hlen; cbn.
    + destruct (positions cens v); [| discriminate Hlen].
      assert (true = false) by now apply Hnil. discriminate.
    + now exists a.
    + exists (a :: b :: l). split; reflexivity.
  - assert (Hp : positions cens v = []) by now apply Hnil.
    rewrite Hp. reflexivity.
Qed.

(** [np.squeeze] on the responses of a group: a status with exactly one
    record gets a zero-dimensional array, a status with two or more a
    one-dimensional array with that many entries, a status with none [None]. *)
Theorem split_response_shapes (x : DataFrame T) (y : Series T) (cens : list Z)
    (log : list (event T)) :
  length (data x) = length cens ->
  length (svalues y) = length cens ->
  exists xs yl ym yr log',
    split_left_right_censored x y cens log = (inr (xs, [yl; ym; yr]), log')
    /\ squeezed_shape (length (positions cens (-1))) yl
    /\ squeezed_shape (length (positions cens 0)) ym
    /\ squeezed_shape (length (positions cens 1)) yr.
Proof.
  intros Hx Hy. do 4 eexists. eexists.
  split; [apply (split_run_log x y cens log Hx Hy) |].
  repeat split; now apply y_group_shape.
Qed.

End PartitionerMore.

Module PartitionerMoreExamples.

Import RealModel Examples.

Lemma split_warns_iff_uncensored_witness :
  exists xs ys,
    split_left_right_censored tiny_x tiny_y tiny_cens []
    = (inr (xs, ys), if any_censored tiny_cens then [] else [] ++ [no_censored_warning]).
Proof.
  apply (@split_warns_iff_uncensored R tiny_x tiny_y tiny_cens []); reflexivity.
Defined.

Lemma split_without_valid_codes_witness :
  split_left_right_censored mixed_x tiny_y [5%Z; 7%Z] []
  = (inr ([None; None; None], [None; None; None]), [] ++ [no_censored_warning]).
Proof.
  apply (@split_without_valid_codes R mixed_x tiny_y [5%Z; 7%Z] []).
  repeat (apply Forall_cons;
          [unfold valid_code; intros [H | [H | H]]; discriminate H |]).
  apply Forall_nil.
Defined.

Lemma split_response_shapes_witness :
  exists xs yl ym yr log',
    split_left_right_censored tiny_x tiny_y tiny_cens [] = (inr (xs, [yl; ym; yr]), log')
    /\ squeezed_shape (length (positions tiny_cens (-1))) yl
    /\ squeezed_shape (length (positions tiny_cens 0)) ym
    /\ squeezed_shape (length (positions tiny_cens 1)) yr.
Proof.
  apply (@split_response_shapes R tiny_x tiny_y tiny_cens []); reflexivity.
Defined.

End PartitionerMoreExamples.

(* ================================================================== *)
(** ** More on the two evaluators, for any scalar type *)

(** The computation in head position of a run in [res]. *)
Ltac find_head t k :=
  lazymatch t with
  | inr _ => fail
  | inl _ => fail
  | match ?c with inl _ => _ | inr _ => _ end => find_head c k
  | match ?c with Some _ => _ | None => _ end => find_head c k
  | let (_, _) := ?c in _ => find_head c k
  | _ => k t
  end.

(** One step of a run in [res] that is known to return. *)
Ltac res_step H :=
  lazymatch type of H with
  | ?lhs = _ =>
      find_head lhs ltac:(fun c =>
        let E := fresh "E" in destruct c eqn:E; try discriminate H)
  end;
  cbn [bind res_monad ret need raise] in H.

Section EvaluatorsMore.

Context {T : Type} {NT : Numeric T} {ST : Special T}.

Lemma length_isub (u v r : list T) : isub u v = inr r -> length r = length u.
Proof.
  unfold isub. destruct (Nat.eqb (length u) (length v)) eqn:E.
  - apply Nat.eqb_eq in E. intros H. injection H as <-.
    clear -E. revert v E. induction u as [| a u IH]; intros [| b v] E;
      simpl in *; try discriminate; auto.
  - destruct v as [| b [| c v]]; try discriminate.
    intros H. injection H as <-. apply length_map.
Qed.

Lemma length_iadd (u v r : list T) : iadd u v = inr r -> length r = length u.
Proof.
  unfold iadd. destruct (Nat.eqb (length u) (length v)) eqn:E.
  - apply Nat.eqb_eq in E. intros H. injection H as <-.
    clear -E. revert v E. induction u as [| a u IH]; intros [| b v] E;
      simpl in *; try discriminate; auto.
  - destruct v as [| b [| c v]]; try discriminate.
    intros H. injection H as <-. apply length_map.
Qed.

Lemma length_but_last (params : list T) (s : T) :
  last_entry params = inr s -> S (length (but_last params)) = length params.
Proof.
  destruct params as [| a l]; [discriminate |]. intros _.
  unfold but_last.
  destruct (exists_last (l := a :: l)) as [l' [z E]]; [discriminate |].
  rewrite E, removelast_last, length_app. simpl. lia.
Qed.

(** The gradient has one entry per parameter: whenever the gradient
    evaluator returns, the vector it returns is as long as [params]. *)
Theorem gradient_length (xs : list (option (ndarray2 T)))
    (ys : list (option (squeezed T))) (params g : list T) :
  tobit_neg_log_likelihood_der xs ys params = inr g ->
  length g = length params.
Proof.
  intros H. unfold tobit_neg_log_likelihood_der in H.
  destruct xs as [| x_left [| x_mid [| x_right [| ? ?]]]]; try discriminate H.
  destruct ys as [| y_left [| y_mid [| y_right [| ? ?]]]]; try discriminate H.
  cbn [unpack3 bind res_monad ret] in H.
  destruct (last_entry params) as [e | s] eqn:Hs; [discriminate H |].
  apply length_but_last in Hs.
  repeat res_step H;
    repeat match goal with
           | E : isub _ _ = inr _ |- _ => apply length_isub in E
           | E : iadd _ _ = inr _ |- _ => apply length_iadd in E
           end;
    injection H as <-;
    rewrite length_map, length_app; cbn [length];
    rewrite ?repeat_length in *; lia.
Qed.

Lemma dot_mv_mismatch (k : nat) (rs : list (list T)) (b : list T) :
  k <> length b -> dot_mv (mk_ndarray2 k rs) b = inl ValueError.
Proof.
  intros Hk. unfold dot_mv. cbn [ncols].
  destruct (Nat.eqb_spec k (length b)); [contradiction | reflexivity].
Qed.

Lemma valid_code_counted (cens : list Z) (c : Z) :
  In c cens -> in_counts c (value_counts cens) = true.
Proof.
  intros Hin. rewrite in_counts_value_counts. apply existsb_exists.
  exists c. split; [exact Hin | apply Z.eqb_refl].
Qed.

Lemma split_gives_partitioned (x : DataFrame T) (y : Series T) (cens : list Z)
    (log log' : list (event T)) (xs : list (option (ndarray2 T)))
    (ys : list (option (squeezed T))) :
  length (data x) = length cens ->
  length (svalues y) = length cens ->
  split_left_right_censored x y cens log = (inr (xs, ys), log') ->
  xs = fst (partitioned x y cens) /\ ys = snd (partitioned x y cens).
Proof.
  intros Hx Hy Hrun.
  rewrite (split_run_log x y cens log Hx Hy) in Hrun.
  injection Hrun as <- <- _. split; reflexivity.
Qed.

(** A parameter vector of the wrong width is refused: on the groups the
    partitioner returns for a dataset with at least one observation of
    status -1, 0 or 1, when beta has not one entry per column of the frame,
    both evaluators raise ValueError (the shape error of np.dot), whatever
    sigma is. *)
Theorem evaluators_reject_wrong_width (x : DataFrame T) (y : Series T)
    (cens : list Z) (beta : list T) (s : T) (log log' : list (event T))
    (xs : list (option (ndarray2 T))) (ys : list (option (squeezed T))) :
  length (data x) = length cens ->
  length (svalues y) = length cens ->
  split_left_right_censored x y cens log = (inr (xs, ys), log') ->
  length (columns x) <> length beta ->
  (exists c, In c cens /\ valid_code c) ->
  tobit_neg_log_likelihood xs ys (beta ++ [s]) = inl ValueError
  /\ tobit_neg_log_likelihood_der xs ys (beta ++ [s]) = inl ValueError.
Proof.
  intros Hx Hy Hrun Hb [c [Hin Hvalid]].
  destruct (split_gives_partitioned x y cens log log' xs ys Hx Hy Hrun) as [-> ->].
  apply valid_code_counted in Hin.
  unfold tobit_neg_log_likelihood, tobit_neg_log_likelihood_der, partitioned.
  cbn [fst snd unpack3 bind res_monad ret].
  rewrite but_last_app, last_entry_app.
  unfold y_group, x_group.
  destruct (in_counts (-1) (value_counts cens)) eqn:Hl;
    [cbn [need bind res_monad ret]; rewrite (dot_mv_mismatch _ _ _ Hb);
     split; reflexivity |].
  destruct (in_counts 1 (value_counts cens)) eqn:Hr;
    [cbn [need bind res_monad ret]; rewrite (dot_mv_mismatch _ _ _ Hb);
     split; reflexivity |].
  destruct (in_counts 0 (value_counts cens)) eqn:Hm;
    [cbn [need bind res_monad ret]; rewrite (dot_mv_mismatch _ _ _ Hb);
     split; reflexivity |].
  destruct Hvalid as [-> | [-> | ->]]; congruence.
Qed.

(** The arguments the evaluators refuse at once: [xs] or [ys] that is not a
    sequence of three entries (ValueError, from the unpacking), and an empty
    parameter vector (IndexError, from [params[-1]]). *)
Theorem evaluators_argument_errors (xs : list (option (ndarray2 T)))
    (ys : list (option (squeezed T))) (params : list T) :
  (length xs <> 3 ->
   tobit_neg_log_likelihood xs ys params = inl ValueError
   /\ tobit_neg_log_likelihood_der xs ys params = inl ValueError)
  /\ (length xs = 3 -> length ys <> 3 ->
      tobit_neg_log_likelihood xs ys params = inl ValueError
      /\ tobit_neg_log_likelihood_der xs ys params = inl ValueError)
  /\ (length xs = 3 -> length ys = 3 ->
      tobit_neg_log_likelihood xs ys [] = inl IndexError
      /\ tobit_neg_log_likelihood_der xs ys [] = inl IndexError).
Proof.
  unfold tobit_neg_log_likelihood, tobit_neg_log_likelihood_der.
  repeat split; intros;
    destruct xs as [| a [| b [| c [| d xs]]]]; cbn [length] in *; try lia;
    try reflexivity;
    destruct ys as [| a' [| b' [| c' [| d' ys]]]]; cbn [length] in *; try lia;
    reflexivity.
Qed.

End EvaluatorsMore.

(* ================================================================== *)
(** ** More on the evaluators over the reals *)

Module RealMore.

Import RealModel RealSpec RealMoreSpec Examples RealObjective RealGradient.
Local Open Scope R_scope.

(** With no group at all the likelihood is empty: on the output of the
    partitioner for a dataset without any code among -1, 0 and 1, and for
    every parameter vector with a scale other than 0, the objective is 0
    and the gradient is the zero vector of the length of the parameters. *)
Theorem evaluators_without_groups (x : DataFrame R) (y : Series R) (cens : list Z)
    (beta : list R) (sigma : R) (log log' : list (event R))
    (xs : list (option (ndarray2 R))) (ys : list (option (squeezed R))) :
  Forall (fun c => ~ valid_code c) cens ->
  split_left_right_censored x y cens log = (inr (xs, ys), log') ->
  sigma <> 0 ->
  tobit_neg_log_likelihood xs ys (beta ++ [sigma]) = inr 0
  /\ tobit_neg_log_likelihood_der xs ys (beta ++ [sigma])
     = inr (repeat 0 (length (beta ++ [sigma]))).
Proof.
  intros Hall Hrun Hsigma.
  rewrite (split_run_no_valid x y cens log Hall) in Hrun.
  injection Hrun as <- <- _.
  unfold tobit_neg_log_likelihood, tobit_neg_log_likelihood_der.
  cbn [unpack3 bind res_monad ret].
  rewrite but_last_app, last_entry_app. cbn [bind res_monad ret].
  real_ops. split.
  - f_equal. ring.
  - f_equal. rewrite length_app, map_app. cbn [length map].
    replace (length beta + 1)%nat with (S (length beta)) by lia.
    cbn [repeat]. rewrite repeat_cons. f_equal.
    + induction (length beta) as [| k IH]; cbn [repeat map]; [reflexivity |].
      rewrite IH. f_equal. ring.
    + f_equal. unfold Rdiv. ring.
Qed.

Lemma select_app {A : Type} (m1 m2 : list bool) (l2 : list A) :
  forall l1 : list A,
    length m1 = length l1 ->
    select (m1 ++ m2) (l1 ++ l2) = select m1 l1 ++ select m2 l2.
Proof.
  induction m1 as [| m m1 IH]; intros [| a l1] Hlen; try discriminate Hlen.
  - reflexivity.
  - simpl in Hlen. injection Hlen as Hlen. cbn [app select].
    rewrite (IH l1 Hlen). now destruct m.
Qed.

Lemma combine_app_eq {A B : Type} (a2 : list A) (b2 : list B) (a1 : list A) :
  forall b1 : list B,
    length a1 = length b1 ->
    combine (a1 ++ a2) (b1 ++ b2) = combine a1 b1 ++ combine a2 b2.
Proof.
  induction a1 as [| a a1 IH]; intros [| b b1] Hlen; try discriminate Hlen.
  - reflexivity.
  - simpl in Hlen. injection Hlen as Hlen. cbn [app combine].
    now rewrite (IH b1 Hlen).
Qed.

(** The observations of two datasets put together: those of the first,
    then those of the second. *)
Lemma observations_append (x1 x2 : DataFrame R) (y1 y2 : Series R)
    (cens1 cens2 : list Z) (v : Z) :
  length (data x1) = length cens1 ->
  length (svalues y1) = length cens1 ->
  observations (frame_append x1 x2) (series_append y1 y2) (cens1 ++ cens2) v
  = observations x1 y1 cens1 v ++ observations x2 y2 cens2 v.
Proof.
  intros Hx Hy. unfold observations, frame_append, series_append, series_eq.
  cbn [data svalues]. rewrite map_app, combine_app_eq by congruence.
  apply select_app. rewrite length_map, length_combine. lia.
Qed.

Lemma loglik_append (x1 x2 : DataFrame R) (y1 y2 : Series R)
    (cens1 cens2 : list Z) (beta : list R) (sigma : R) :
  length (data x1) = length cens1 ->
  length (svalues y1) = length cens1 ->
  loglik_floored (frame_append x1 x2) (series_append y1 y2) (cens1 ++ cens2) beta sigma
  = loglik_floored x1 y1 cens1 beta sigma + loglik_floored x2 y2 cens2 beta sigma.
Proof.
  intros Hx Hy. unfold loglik_floored, loglik_with.
  rewrite !(observations_append x1 x2 y1 y2 cens1 cens2 _ Hx Hy).
  rewrite !map_app, !Rsum_app. ring.
Qed.

(** The objective is additive over observations: on two datasets over the
    same columns put one after the other, it returns the sum of what it
    returns on each (each partitioned by the partitioner), for one parameter
    vector with a scale other than 0. *)
Theorem objective_additive (x1 x2 : DataFrame R) (y1 y2 : Series R)
    (cens1 cens2 : list Z) (beta : list R) (sigma : R)
    (log log1 log2 log12 : list (event R))
    (xs1 xs2 xs12 : list (option (ndarray2 R)))
    (ys1 ys2 ys12 : list (option (squeezed R))) :
  length (data x1) = length cens1 -> length (svalues y1) = length cens1 ->
  length (data x2) = length cens2 -> length (svalues y2) = length cens2 ->
  length (columns x1) = length beta -> length (columns x2) = length beta ->
  sigma <> 0 ->
  split_left_right_censored x1 y1 cens1 log = (inr (xs1, ys1), log1) ->
  split_left_right_censored x2 y2 cens2 log = (inr (xs2, ys2), log2) ->
  split_left_right_censored (frame_append x1 x2) (series_append y1 y2)
                            (cens1 ++ cens2) log = (inr (xs12, ys12), log12) ->
  exists v1 v2 : R,
    tobit_neg_log_likelihood xs1 ys1 (beta ++ [sigma]) = inr v1
    /\ tobit_neg_log_likelihood xs2 ys2 (beta ++ [sigma]) = inr v2
    /\ tobit_neg_log_likelihood xs12 ys12 (beta ++ [sigma]) = inr (v1 + v2).
Proof.
  intros Hx1 Hy1 Hx2 Hy2 Hb1 Hb2 _ Hrun1 Hrun2 Hrun12.
  assert (Hx12 : length (data (frame_append x1 x2)) = length (cens1 ++ cens2))
    by (cbn [frame_append data]; rewrite !length_app; lia).
  assert (Hy12 : length (svalues (series_append y1 y2)) = length (cens1 ++ cens2))
    by (cbn [series_append svalues]; rewrite !length_app; lia).
  destruct (split_partitioned _ _ _ _ _ _ _ Hx1 Hy1 Hrun1) as [-> ->].
  destruct (split_partitioned _ _ _ _ _ _ _ Hx2 Hy2 Hrun2) as [-> ->].
  destruct (split_partitioned _ _ _ _ _ _ _ Hx12 Hy12 Hrun12) as [-> ->].
  exists (- loglik_floored x1 y1 cens1 beta sigma),
         (- loglik_floored x2 y2 cens2 beta sigma).
  rewrite !tobit_nll_real by assumption.
  repeat split. f_equal. rewrite loglik_append by assumption. ring.
Qed.

Lemma zip_with_app (op : R -> R -> R) (u2 v2 : list R) (u1 : list R) :
  forall v1 : list R,
    length u1 = length v1 ->
    zip_with op (u1 ++ u2) (v1 ++ v2) = zip_with op u1 v1 ++ zip_with op u2 v2.
Proof.
  induction u1 as [| a u1 IH]; intros [| b v1] Hlen; try discriminate Hlen.
  - reflexivity.
  - simpl in Hlen. injection Hlen as Hlen. cbn [app zip_with].
    now rewrite (IH v1 Hlen).
Qed.

Lemma zip_plus_opp (u : list R) :
  forall v : list R,
    zip_with Rplus (map Ropp u) (map Ropp v) = map Ropp (zip_with Rplus u v).
Proof.
  induction u as [| a u IH]; intros [| b v]; cbn [map zip_with]; try reflexivity.
  rewrite IH. f_equal. ring.
Qed.

Lemma gradient_spec_append (x1 x2 : DataFrame R) (y1 y2 : Series R)
    (cens1 cens2 : list Z) (beta : list R) (sigma : R) :
  length (data x1) = length cens1 ->
  length (svalues y1) = length cens1 ->
  gradient_spec (frame_append x1 x2) (series_append y1 y2) (cens1 ++ cens2) beta sigma
  = zip_with Rplus (gradient_spec x1 y1 cens1 beta sigma)
                   (gradient_spec x2 y2 cens2 beta sigma).
Proof.
  intros Hx Hy. unfold gradient_spec.
  rewrite zip_plus_opp, zip_with_app by now rewrite !length_map.
  rewrite (zip_with_map_same Rplus). cbn [zip_with].
  f_equal. f_equal.
  - apply map_ext. intros j. unfold beta_entry.
    rewrite !(observations_append x1 x2 y1 y2 cens1 cens2 _ Hx Hy).
    rewrite !map_app, !Rsum_app. ring.
  - f_equal. unfold sigma_accumulated.
    rewrite !(observations_append x1 x2 y1 y2 cens1 cens2 _ Hx Hy).
    rewrite !map_app, !Rsum_app. unfold Rdiv. ring.
Qed.

Lemma rectangular_append (x1 x2 : DataFrame R) :
  rectangular x1 -> rectangular x2 ->
  length (columns x1) = length (columns x2) ->
  rectangular (frame_append x1 x2).
Proof.
  unfold rectangular, frame_append. cbn [data columns]. intros H1 H2 Hc.
  apply Forall_app. split; [exact H1 |].
  eapply Forall_impl; [| exact H2]. cbn. intros row Hrow. congruence.
Qed.

(** The gradient is additive over observations: on two rectangular
    datasets over the same columns put one after the other, it returns the
    entrywise sum of what it returns on each, for one parameter vector with
    a scale other than 0. *)
Theorem gradient_additive (x1 x2 : DataFrame R) (y1 y2 : Series R)
    (cens1 cens2 : list Z) (beta : list R) (sigma : R)
    (log log1 log2 log12 : list (event R))
    (xs1 xs2 xs12 : list (option (ndarray2 R)))
    (ys1 ys2 ys12 : list (option (squeezed R))) :
  length (data x1) = length cens1 -> length (svalues y1) = length cens1 ->
  length (data x2) = length cens2 -> length (svalues y2) = length cens2 ->
  length (columns x1) = length beta -> length (columns x2) = length beta ->
  sigma <> 0 ->
  rectangular x1 -> rectangular x2 ->
  split_left_right_censored x1 y1 cens1 log = (inr (xs1, ys1), log1) ->
  split_left_right_censored x2 y2 cens2 log = (inr (xs2, ys2), log2) ->
  split_left_right_censored (frame_append x1 x2) (series_append y1 y2)
                            (cens1 ++ cens2) log = (inr (xs12, ys12), log12) ->
  exists g1 g2 : list R,
    tobit_neg_log_likelihood_der xs1 ys1 (beta ++ [sigma]) = inr g1
    /\ tobit_neg_log_likelihood_der xs2 ys2 (beta ++ [sigma]) = inr g2
    /\ tobit_neg_log_likelihood_der xs12 ys12 (beta ++ [sigma])
       = inr (zip_with Rplus g1 g2).
Proof.
  intros Hx1 Hy1 Hx2 Hy2 Hb1 Hb2 _ Hwf1 Hwf2 Hrun1 Hrun2 Hrun12.
  assert (Hx12 : length (data (frame_append x1 x2)) = length (cens1 ++ cens2))
    by (cbn [frame_append data]; rewrite !length_app; lia).
  assert (Hy12 : length (svalues (series_append y1 y2)) = length (cens1 ++ cens2))
    by (cbn [series_append svalues]; rewrite !length_app; lia).
  assert (Hwf12 : rectangular (frame_append x1 x2))
    by (apply rectangular_append; congruence).
  destruct (split_partitioned _ _ _ _ _ _ _ Hx1 Hy1 Hrun1) as [-> ->].
  destruct (split_partitioned _ _ _ _ _ _ _ Hx2 Hy2 Hrun2) as [-> ->].
  destruct (split_partitioned _ _ _ _ _ _ _ Hx12 Hy12 Hrun12) as [-> ->].
  exists (gradient_spec x1 y1 cens1 beta sigma), (gradient_spec x2 y2 cens2 beta sigma).
  rewrite !tobit_der_real by assumption.
  repeat split. f_equal. now apply gradient_spec_append.
Qed.

Lemma In_select {A : Type} (a : A) (mask : list bool) :
  forall l : list A, In a (select mask l) -> In a l.
Proof.
  induction mask as [| m mask IH]; intros [| b l] Hin; simpl in *; try contradiction.
  destruct m; [destruct Hin as [-> | Hin]; [now left | right; now apply IH]
              | right; now apply IH].
Qed.

Lemma observations_shift (t : R) (x : DataFrame R) (y : Series R) (cens : list Z) (v : Z) :
  observations x (shift_responses t y) cens v
  = map (fun o => (fst o, snd o + t)) (observations x y cens v).
Proof.
  unfold observations, shift_responses. cbn [svalues].
  rewrite RealSymmetry.combine_map_r. apply RealSymmetry.select_map.
Qed.

Lemma observation_constant_first (x : DataFrame R) (y : Series R) (cens : list Z)
    (v : Z) (o : list R * R) :
  constant_first x -> In o (observations x y cens v) ->
  exists rest, fst o = 1 :: rest.
Proof.
  unfold constant_first, observations. intros Hc Hin.
  apply In_select in Hin. destruct o as [row a].
  apply in_combine_l in Hin. rewrite Forall_forall in Hc. now apply Hc.
Qed.

Lemma Rdot_shift (t : R) (rest beta : list R) :
  beta <> [] ->
  Rdot (1 :: rest) (shift_intercept t beta) = Rdot (1 :: rest) beta + t.
Proof.
  destruct beta as [| b0 bs]; [contradiction |]. intros _.
  unfold Rdot, Rsum. cbn. ring.
Qed.

Lemma length_shift_intercept (t : R) (beta : list R) :
  length (shift_intercept t beta) = length beta.
Proof. now destruct beta. Qed.

(** The standardized residuals do not see the shift. *)
Lemma z_shift (t : R) (x : DataFrame R) (y : Series R) (cens : list Z) (v : Z)
    (beta : list R) (sigma : R) (o : list R * R) :
  constant_first x -> beta <> [] ->
  In o (observations x y cens v) ->
  z_left (shift_intercept t beta) sigma (fst o, snd o + t) = z_left beta sigma o
  /\ z_right (shift_intercept t beta) sigma (fst o, snd o + t) = z_right beta sigma o.
Proof.
  intros Hc Hbeta Hin.
  destruct (observation_constant_first x y cens v o Hc Hin) as [rest E].
  unfold z_left, z_right. cbn [fst snd]. rewrite E, Rdot_shift by exact Hbeta.
  split; unfold Rdiv; ring.
Qed.

Lemma loglik_shift (t : R) (x : DataFrame R) (y : Series R) (cens : list Z)
    (beta : list R) (sigma : R) :
  constant_first x -> beta <> [] ->
  loglik_floored x (shift_responses t y) cens (shift_intercept t beta) sigma
  = loglik_floored x y cens beta sigma.
Proof.
  intros Hc Hbeta. unfold loglik_floored, loglik_with.
  rewrite !observations_shift, !map_map.
  f_equal; [f_equal |]; f_equal; apply map_ext_in; intros o Hin;
    destruct (z_shift t x y cens _ beta sigma o Hc Hbeta Hin) as [Hl Hr];
    unfold z_left, z_right in Hl, Hr; cbn [fst snd] in *;
    rewrite ?Hl, ?Hr; reflexivity.
Qed.

Lemma gradient_spec_shift (t : R) (x : DataFrame R) (y : Series R) (cens : list Z)
    (beta : list R) (sigma : R) :
  constant_first x -> beta <> [] ->
  gradient_spec x (shift_responses t y) cens (shift_intercept t beta) sigma
  = gradient_spec x y cens beta sigma.
Proof.
  intros Hc Hbeta. unfold gradient_spec.
  rewrite length_shift_intercept. f_equal. f_equal.
  - apply map_ext. intros j. unfold beta_entry.
    rewrite !observations_shift, !map_map.
    f_equal; [f_equal; [f_equal |] |]; f_equal; apply map_ext_in; intros o Hin;
      destruct (z_shift t x y cens _ beta sigma o Hc Hbeta Hin) as [Hl Hr];
      rewrite ?Hl, ?Hr; reflexivity.
  - f_equal. f_equal. unfold sigma_accumulated.
    rewrite !observations_shift, !map_map.
    f_equal; [f_equal; [f_equal |] |]; f_equal; apply map_ext_in; intros o Hin;
      destruct (z_shift t x y cens _ beta sigma o Hc Hbeta Hin) as [Hl Hr];
      rewrite ?Hl, ?Hr; reflexivity.
Qed.

(** Moving the data and the intercept together changes nothing: for a
    rectangular frame with the constant column in front, adding [t] to
    every response and to the first entry of beta leaves the value of the
    objective and the gradient vector as they were, for every scale other
    than 0. *)
Theorem evaluators_shift_invariant (t : R) (x : DataFrame R) (y : Series R)
    (cens : list Z) (beta : list R) (sigma : R) (log log1 log2 : list (event R))
    (xs xs' : list (option (ndarray2 R))) (ys ys' : list (option (squeezed R))) :
  length (data x) = length cens ->
  length (svalues y) = length cens ->
  length (columns x) = length beta ->
  beta <> [] ->
  sigma <> 0 ->
  rectangular x ->
  constant_first x ->
  split_left_right_censored x y cens log = (inr (xs, ys), log1) ->
  split_left_right_censored x (shift_responses t y) cens log = (inr (xs', ys'), log2) ->
  exists (value : R) (g : list R),
    tobit_neg_log_likelihood xs ys (beta ++ [sigma]) = inr value
    /\ tobit_neg_log_likelihood xs' ys' (shift_intercept t beta ++ [sigma]) = inr value
    /\ tobit_neg_log_likelihood_der xs ys (beta ++ [sigma]) = inr g
    /\ tobit_neg_log_likelihood_der xs' ys' (shift_intercept t beta ++ [sigma]) = inr g.
Proof.
  intros Hx Hy Hb Hbeta _ Hwf Hc Hrun Hrun'.
  assert (Hy' : length (svalues (shift_responses t y)) = length cens)
    by (cbn [shift_responses svalues]; now rewrite length_map).
  assert (Hb' : length (columns x) = length (shift_intercept t beta))
    by now rewrite length_shift_intercept.
  destruct (split_partitioned _ _ _ _ _ _ _ Hx Hy Hrun) as [-> ->].
  destruct (split_partitioned _ _ _ _ _ _ _ Hx Hy' Hrun') as [-> ->].
  exists (- loglik_floored x y cens beta sigma), (gradient_spec x y cens beta sigma).
  rewrite !tobit_nll_real, !tobit_der_real by assumption.
  rewrite loglik_shift, gradient_spec_shift by assumption.
  repeat split.
Qed.

(** [score] against [predict]: whenever [predict] returns the predictions
    [p] of a model with intercept [i], [score] applies the metric (the given
    one, or the mean absolute error by default) to the responses and [p]
    with [i] taken off every entry; so it scores the predictions themselves
    exactly when the intercept is 0. *)
Theorem score_of_predictions (me : TobitModel R) (x : ndarray2 R) (y p : list R)
    (i : R) (metric : list R -> list R -> res R) :
  predict me x = inr p ->
  intercept_ me = Some i ->
  score me x y (Some metric) = metric y (map (fun v => v - i) p)
  /\ score me x y None = mean_absolute_error y (map (fun v => v - i) p)
  /\ (i = 0 -> score me x y (Some metric) = metric y p).
Proof.
  intros Hp Hi. unfold predict in Hp. unfold score.
  destruct (coef_ me) as [c |]; [| discriminate Hp].
  cbn [need bind res_monad ret] in *.
  destruct (dot_mv x c) as [e | d]; [discriminate Hp |].
  rewrite Hi in Hp. cbn [need bind res_monad ret] in Hp |- *. injection Hp as <-.
  assert (Hd : map (fun v => v - i) (map (fun v => i + v) d) = d).
  { rewrite map_map. rewrite <- (map_id d) at 2.
    apply map_ext. intros v. ring. }
  change (map (fun v => add i v) d) with (map (fun v => i + v) d).
  rewrite Hd. split; [reflexivity | split; [reflexivity |]].
  intros ->. f_equal. rewrite <- (map_id d) at 1.
  apply map_ext. intros v. ring.
Qed.

End RealMore.

(* ================================================================== *)
(** ** More over binary64 *)

Module FloatMore.

Import FloatModel.
Local Open Scope float_scope.

(** A float above the resolution is not at or below zero. *)
Lemma above_resolution_positive (s : float) :
  (resolution <? s) = true -> (s <=? 0) = false.
Proof.
  cbn [resolution float_numeric].
  rewrite ltb_spec, leb_spec.
  change (Prim2SF 0) with (S754_zero false).
  change (Prim2SF 0x1.203af9ee75616p-50)
    with (S754_finite false 5070602400912918 (-102)).
  destruct (Prim2SF s) as [sg | sg | | sg m e]; cbn;
    try discriminate; destruct sg; try discriminate; reflexivity.
Qed.

(** The guard of line 56 over binary64: for every float sigma, NaN, zero,
    negative numbers and infinities included, math.log is called on
    max(resolution, sigma) and does not raise its domain error; for a sigma
    that is not above the resolution (NaN included) it is called on the
    resolution itself. *)
Theorem log_guard_never_raises (ST : Special float) (s : float) :
  math_log (pymax resolution s) = inr (ln (pymax resolution s))
  /\ ((resolution <? s) = false -> pymax resolution s = resolution).
Proof.
  unfold math_log, pymax. cbn [ltb leb zero float_numeric].
  destruct (resolution <? s) eqn:Hlt.
  - split; [| discriminate].
    change (@resolution float float_numeric <? s) with (PrimFloat.ltb resolution s) in Hlt.
    now rewrite (above_resolution_positive s Hlt).
  - split; reflexivity.
Qed.

End FloatMore.

(* ================================================================== *)
(** ** More on [fit] *)

Section FitMore.

Context {T : Type} {NT : Numeric T} {ST : Special T}.

(** A frame that already has a column named intercept cannot be fitted with
    the intercept enabled: [fit] raises ValueError at the insertion, before
    any collaborator is called, and leaves the instance and the log as they
    were. *)
Theorem fit_refuses_intercept_column (ext : Collaborators T) (x : DataFrame T)
    (y : Series T) (cens : list Z) (verbose : bool) (w : world T) :
  fit_intercept (self w) = true ->
  In "intercept"%string (columns x) ->
  fit ext x y cens verbose w = (inl ValueError, w).
Proof.
  intros Hmode Hin. unfold fit, gets, lift_res, frame_insert0.
  cbn [bind M_monad]. rewrite Hmode.
  assert (Hex : existsb (String.eqb "intercept") (columns x) = true).
  { apply existsb_exists. exists "intercept"%string.
    split; [exact Hin | apply String.eqb_refl]. }
  rewrite Hex. reflexivity.
Qed.

(** [fit] assigns nothing before the optimizer has returned: whenever a
    call of [fit], returning or raising, leaves the attributes of the instance
    changed, the intercept is enabled and the calls that [fit] itself makes
    had all returned: least squares on the frame with the constant column,
    its prediction, the partition of that frame, and [minimize] on the
    objective and the gradient over that partition, from the warm start. *)
Theorem fit_assigns_after_optimizer (ext : Collaborators T) (x : DataFrame T)
    (y : Series T) (cens : list Z) (verbose : bool) (w w' : world T)
    (r : res unit) :
  fit ext x y cens verbose w = (r, w') ->
  self w' <> self w ->
  fit_intercept (self w) = true
  /\ exists b0 y_pred resid xs ys log1 result,
       lr_fit ext (with_intercept x) y = inr b0
       /\ lr_predict ext b0 (with_intercept x) = inr y_pred
       /\ series_sub (svalues y) y_pred = inr resid
       /\ split_left_right_censored (with_intercept x) y cens (out w)
          = (inr (xs, ys), log1)
       /\ minimize ext (fun params => tobit_neg_log_likelihood xs ys params)
                       (fun params => tobit_neg_log_likelihood_der xs ys params)
                       (b0 ++ [sqrtv (np_var resid)]) verbose = inr result.
Proof.
  intros Hrun Hne. unfold fit in Hrun.
  cbn [bind M_monad ret] in Hrun.
  unfold gets, lift_res, emit, assign, modify, with_log in Hrun.
  destruct (fit_intercept (self w)) eqn:Hmode.
  - split; [reflexivity |].
    destruct (frame_insert0 x "intercept" one) as [e | x_copy] eqn:Hins;
      [injection Hrun as _ <-; now elim Hne |].
    unfold frame_insert0 in Hins.
    destruct (existsb (String.eqb "intercept") (columns x)); [discriminate Hins |].
    injection Hins as <-. fold (with_intercept x) in Hrun.
    destruct (lr_fit ext (with_intercept x) y) as [e | b0] eqn:Hlr;
      [injection Hrun as _ <-; now elim Hne |].
    destruct (lr_predict ext b0 (with_intercept x)) as [e | y_pred] eqn:Hpred;
      [injection Hrun as _ <-; now elim Hne |].
    destruct (series_sub (svalues y) y_pred) as [e | resid] eqn:Hres;
      [injection Hrun as _ <-; now elim Hne |].
    destruct (split_left_right_censored (with_intercept x) y cens (out w))
      as [[e | [xs ys]] log1] eqn:Hsplit;
      [injection Hrun as _ <-; now elim Hne |].
    cbn [self out] in Hrun.
    destruct (minimize ext _ _ _ verbose) as [e | result] eqn:Hmin;
      [injection Hrun as _ <-; now elim Hne |].
    exists b0, y_pred, resid, xs, ys, log1, result.
    repeat (split; [first [assumption | reflexivity] |]). exact Hmin.
  - cbn [bind res_monad] in Hrun.
    destruct (frame_call_scale x) as [e | u] eqn:Hscale;
      [injection Hrun as _ <-; now elim Hne |].
    unfold frame_call_scale in Hscale.
    destruct (existsb (String.eqb "scale") (columns x)); discriminate Hscale.
Qed.

(** A fit with the intercept enabled that returns, step by step. *)
Lemma fit_run_returns (ext : Collaborators T) (x : DataFrame T)
    (y : Series T) (cens : list Z) (verbose : bool) (w w' : world T) :
  fit_intercept (self w) = true ->
  fit ext x y cens verbose w = (inr tt, w') ->
  exists b0 b0_0 y_pred resid xs ys log1 result x_1 s se_0 zv lo hi,
    let params0 := b0 ++ [sqrtv (np_var resid)] in
    let coef := inner_slice (res_x result) in
    let cse := inner_slice (std_errors (res_hess_inv result)) in
    lr_fit ext (with_intercept x) y = inr b0
    /\ lr_predict ext b0 (with_intercept x) = inr y_pred
    /\ series_sub (svalues y) y_pred = inr resid
    /\ split_left_right_censored (with_intercept x) y cens (out w)
       = (inr (xs, ys), log1)
    /\ minimize ext (fun params => tobit_neg_log_likelihood xs ys params)
                    (fun params => tobit_neg_log_likelihood_der xs ys params)
                    params0 verbose = inr result
    /\ nth_error b0 0 = Some b0_0
    /\ nth_error (res_x result) 1 = Some x_1
    /\ last_entry (res_x result) = inr s
    /\ nth_error (std_errors (res_hess_inv result)) 0 = Some se_0
    /\ broadcast div coef cse = inr zv
    /\ self w' = set_sigma_ s (set_coef_ coef (set_intercept_ x_1
                   (set_ols_intercept b0_0 (set_ols_coef_ (tl b0) (self w)))))
    /\ last_report (out w')
       = Some (let index := "const"%string :: columns x in
               [ ("coef", maybe_repeat (x_1 :: coef) index);
                 ("std err", maybe_repeat (se_0 :: cse) index);
                 ("z", maybe_repeat (div x_1 se_0 :: zv) index);
                 ("P>|z|", maybe_repeat
                             (map round4 (map p_value (div x_1 se_0 :: zv))) index);
                 ("[0.025", maybe_repeat (sub x_1 (mul c1_96 se_0) :: lo) index);
                 ("0.975]", maybe_repeat (add x_1 (mul c1_96 se_0) :: hi) index)
               ]%string).
Proof.
  intros Hmode Hrun. unfold fit in Hrun.
  cbn [bind M_monad ret] in Hrun.
  unfold gets, lift_res, emit, assign, modify, with_log in Hrun.
  rewrite Hmode in Hrun.
  repeat run_step Hrun.
  (* the frame with the constant column *)
  unfold frame_insert0 in E.
  destruct (existsb (String.eqb "intercept") (columns x)); [discriminate E |].
  injection E as <-. fold (with_intercept x) in *.
  (* the partition and the optimizer *)
  destruct (split_left_right_censored (with_intercept x) y cens (out w))
    as [r' log1] eqn:Hsplit.
  injection E3 as -> <-. cbn [self out] in *.
  assert (Hw1 : self w1 = self w)
    by (destruct verbose; injection E6 as _ <-; reflexivity).
  (* the attributes *)
  rewrite Hw1, Hmode in E9.
  destruct (index (res_x o) 1) as [e | x_1] eqn:Ex1; [discriminate E9 |].
  injection E9 as _ <-. cbn [self out fit_intercept set_coef_ set_intercept_
                             set_ols_intercept set_ols_coef_] in *.
  rewrite ?Hw1, Hmode in E12. cbn [bind res_monad ret] in E12.
  destruct (index (std_errors (res_hess_inv o)) 0) as [e | se_0] eqn:Ese;
    [discriminate E12 |].
  injection E12 as <- <-.
  cbn [coef_ intercept_ set_sigma_ need local ret res_monad] in E13, E15, E16.
  injection E13 as <-. injection E15 as <-. injection E16 as <-.
  (* the table *)
  unfold make_summary in E19.
  destruct (forallb _ _) in E19; [| discriminate E19].
  injection E19 as <-.
  injection Hrun as <-.
  exists l, t, l0, l1, l2, l3, log1, o, x_1, t0, se_0, l6, l7, l8. cbn zeta.
  repeat (split; [first [assumption | reflexivity | now apply index_nth_error] |]).
  cbn [out]. unfold last_report. rewrite fold_left_app. reflexivity.
Qed.

(** The warm start of a fit with the intercept enabled that returns: the
    frame gets a column of ones in front; the optimizer is given the
    objective and the gradient over the partition of that frame, and starts
    from the least-squares coefficients followed by the square root of the
    variance of the least-squares residuals; [ols_intercept] and [ols_coef_]
    are the first and the other least-squares coefficients. *)
Theorem fit_warm_start (ext : Collaborators T) (x : DataFrame T)
    (y : Series T) (cens : list Z) (verbose : bool) (w w' : world T) :
  fit_intercept (self w) = true ->
  fit ext x y cens verbose w = (inr tt, w') ->
  exists b0 y_pred resid xs ys log1 result,
    lr_fit ext (with_intercept x) y = inr b0
    /\ lr_predict ext b0 (with_intercept x) = inr y_pred
    /\ series_sub (svalues y) y_pred = inr resid
    /\ split_left_right_censored (with_intercept x) y cens (out w)
       = (inr (xs, ys), log1)
    /\ minimize ext (fun params => tobit_neg_log_likelihood xs ys params)
                    (fun params => tobit_neg_log_likelihood_der xs ys params)
                    (b0 ++ [sqrtv (np_var resid)]) verbose = inr result
    /\ ols_intercept (self w') = nth_error b0 0
    /\ ols_coef_ (self w') = Some (tl b0).
Proof.
  intros Hmode Hrun.
  destruct (fit_run_returns ext x y cens verbose w w' Hmode Hrun)
    as (b0 & b0_0 & y_pred & resid & xs & ys & log1 & result & x_1 & s & se_0
        & zv & lo & hi & H).
  cbn zeta in H.
  destruct H as (H1 & H2 & H3 & H4 & H5 & H6 & _ & _ & _ & _ & Hself & _).
  exists b0, y_pred, resid, xs, ys, log1, result.
  rewrite Hself, H6. repeat (split; [assumption |]). split; reflexivity.
Qed.

Lemma zip_with_scaled (op : T -> T -> T) (c : T) (u : list T) :
  forall v : list T,
    zip_with op u (map (mul c) v) = zip_with (fun a e => op a (mul c e)) u v.
Proof.
  induction u as [| a u IH]; intros [| e v]; cbn; try reflexivity.
  now rewrite IH.
Qed.

(** The rows of the report.  For a fit with the intercept enabled whose
    collaborators return, the optimizer's result having the shapes BFGS
    gives it (one final parameter per column of the frame, plus the constant
    and the scale, and as many diagonal entries in the inverse curvature):
    [fit] returns, the table has one row for the constant and one per column
    of the frame, and in every row z is the estimate divided by its standard
    error and the interval is the estimate minus and plus 1.96 standard
    errors. *)
Theorem report_rows (ext : Collaborators T) (x : DataFrame T) (y : Series T)
    (cens : list Z) (verbose : bool) (w : world T)
    (b0 y_pred resid : list T) (xs : list (option (ndarray2 T)))
    (ys : list (option (squeezed T))) (log1 : list (event T))
    (result : OptimizeResult T) :
  fit_intercept (self w) = true ->
  ~ In "intercept"%string (columns x) ->
  lr_fit ext (with_intercept x) y = inr b0 ->
  lr_predict ext b0 (with_intercept x) = inr y_pred ->
  series_sub (svalues y) y_pred = inr resid ->
  split_left_right_censored (with_intercept x) y cens (out w)
  = (inr (xs, ys), log1) ->
  minimize ext (fun params => tobit_neg_log_likelihood xs ys params)
               (fun params => tobit_neg_log_likelihood_der xs ys params)
               (b0 ++ [sqrtv (np_var resid)]) verbose = inr result ->
  b0 <> [] ->
  length (res_x result) = length (columns x) + 2 ->
  length (np_diag (res_hess_inv result)) = length (res_x result) ->
  exists (w' : world T) (est se : list T),
    fit ext x y cens verbose w = (inr tt, w')
    /\ report_column w' "coef" = Some est
    /\ report_column w' "std err" = Some se
    /\ length est = S (length (columns x))
    /\ length se = S (length (columns x))
    /\ report_column w' "z" = Some (zip_with div est se)
    /\ report_column w' "[0.025"
       = Some (zip_with (fun c e => sub c (mul c1_96 e)) est se)
    /\ report_column w' "0.975]"
       = Some (zip_with (fun c e => add c (mul c1_96 e)) est se).
Proof.
  intros Hmode Hcol Hlr Hpred Hres Hsplit Hmin Hb0 Hx Hd.
  destruct (fit_run_shapes ext x y cens verbose w b0 y_pred resid xs ys log1
              result Hmode Hcol Hlr Hpred Hres Hsplit Hmin Hb0 Hx Hd)
    as (w' & x_1 & se_0 & Hrun & _ & _ & Hc & Hs & Hrep).
  exists w', (x_1 :: inner_slice (res_x result)),
         (se_0 :: inner_slice (std_errors (res_hess_inv result))).
  rewrite !(report_column_of w' _ _ Hrep). cbn [length].
  rewrite Hc, Hs. unfold summary_table. cbn [find fst snd String.eqb Ascii.eqb Bool.eqb].
  rewrite <- !zip_with_scaled.
  repeat split; first [exact Hrun | reflexivity].
Qed.

(** The p-values of the report: each is the two-sided normal p-value
    2 (1 - Phi(|z|)) of the z of its row, rounded to four decimals. *)
Theorem report_p_values (ext : Collaborators T) (x : DataFrame T)
    (y : Series T) (cens : list Z) (verbose : bool) (w w' : world T) :
  fit_intercept (self w) = true ->
  fit ext x y cens verbose w = (inr tt, w') ->
  exists zs : list T,
    report_column w' "z" = Some zs
    /\ report_column w' "P>|z|" = Some (map (fun z => round4 (p_value z)) zs).
Proof.
  intros Hmode Hrun.
  destruct (fit_run_returns ext x y cens verbose w w' Hmode Hrun)
    as (b0 & b0_0 & y_pred & resid & xs & ys & log1 & result & x_1 & s & se_0
        & zv & lo & hi & H).
  cbn zeta in H.
  destruct H as (_ & _ & _ & _ & _ & _ & _ & _ & _ & _ & _ & Hrep).
  eexists. rewrite !(report_column_of w' _ _ Hrep).
  cbn [find fst snd String.eqb Ascii.eqb Bool.eqb].
  split; [reflexivity |].
  now rewrite !maybe_repeat_map, map_map.
Qed.

(** Where the report takes its numbers from.  For a fit with the intercept
    enabled whose collaborators return, the optimizer's result having the
    shapes BFGS gives it: [fit] returns, and of the result of its call of
    [minimize] the estimates are entry 1 of the final parameters for the
    constant, then the entries from 1 up to the last; the standard errors
    are entry 0 of the square roots of the inverse-curvature diagonal for
    the constant, then the entries from 1 up to the last.  The last entry
    of either, that of the scale, is not in the table. *)
Theorem report_sources (ext : Collaborators T) (x : DataFrame T) (y : Series T)
    (cens : list Z) (verbose : bool) (w : world T)
    (b0 y_pred resid : list T) (xs : list (option (ndarray2 T)))
    (ys : list (option (squeezed T))) (log1 : list (event T))
    (result : OptimizeResult T) :
  fit_intercept (self w) = true ->
  ~ In "intercept"%string (columns x) ->
  lr_fit ext (with_intercept x) y = inr b0 ->
  lr_predict ext b0 (with_intercept x) = inr y_pred ->
  series_sub (svalues y) y_pred = inr resid ->
  split_left_right_censored (with_intercept x) y cens (out w)
  = (inr (xs, ys), log1) ->
  minimize ext (fun params => tobit_neg_log_likelihood xs ys params)
               (fun params => tobit_neg_log_likelihood_der xs ys params)
               (b0 ++ [sqrtv (np_var resid)]) verbose = inr result ->
  b0 <> [] ->
  length (res_x result) = length (columns x) + 2 ->
  length (np_diag (res_hess_inv result)) = length (res_x result) ->
  exists (w' : world T) (x_1 se_0 : T),
    fit ext x y cens verbose w = (inr tt, w')
    /\ nth_error (res_x result) 1 = Some x_1
    /\ nth_error (std_errors (res_hess_inv result)) 0 = Some se_0
    /\ report_column w' "coef" = Some (x_1 :: inner_slice (res_x result))
    /\ report_column w' "std err"
       = Some (se_0 :: inner_slice (std_errors (res_hess_inv result))).
Proof.
  intros Hmode Hcol Hlr Hpred Hres Hsplit Hmin Hb0 Hx Hd.
  destruct (fit_run_shapes ext x y cens verbose w b0 y_pred resid xs ys log1
              result Hmode Hcol Hlr Hpred Hres Hsplit Hmin Hb0 Hx Hd)
    as (w' & x_1 & se_0 & Hrun & Hx1 & Hse & _ & _ & Hrep).
  exists w', x_1, se_0.
  rewrite !(report_column_of w' _ _ Hrep).
  split; [exact Hrun |]. split; [exact Hx1 |]. split; [exact Hse |].
  split; reflexivity.
Qed.

End FitMore.

(* ================================================================== *)
(** ** The further properties at small inputs *)

Module MoreExamples.

Import RealModel RealSpec RealMoreSpec Examples RealObjective RealGradient RealMore.
Local Open Scope R_scope.

Lemma gradient_length_witness :
  length (gradient_spec tiny_x tiny_y tiny_cens [2] 1) = length ([2] ++ [1]).
Proof.
  apply (gradient_length (fst (partitioned tiny_x tiny_y tiny_cens))
                         (snd (partitioned tiny_x tiny_y tiny_cens))).
  apply tobit_der_real; try reflexivity.
  unfold rectangular. cbn [data columns tiny_x].
  repeat (apply Forall_cons; [reflexivity |]). apply Forall_nil.
Defined.

Lemma evaluators_reject_wrong_width_witness :
  tobit_neg_log_likelihood (fst (partitioned tiny_x tiny_y tiny_cens))
    (snd (partitioned tiny_x tiny_y tiny_cens)) ([2; 3] ++ [1]) = inl ValueError
  /\ tobit_neg_log_likelihood_der (fst (partitioned tiny_x tiny_y tiny_cens))
       (snd (partitioned tiny_x tiny_y tiny_cens)) ([2; 3] ++ [1]) = inl ValueError.
Proof.
  apply (evaluators_reject_wrong_width tiny_x tiny_y tiny_cens [2; 3] 1 [] []);
    try reflexivity.
  - discriminate.
  - exists 0%Z. split; [right; left; reflexivity | right; left; reflexivity].
Defined.

Lemma evaluators_without_groups_witness :
  tobit_neg_log_likelihood [None; None; None] [None; None; None] ([2] ++ [1]) = inr 0
  /\ tobit_neg_log_likelihood_der [None; None; None] [None; None; None] ([2] ++ [1])
     = inr (repeat 0 (length ([2] ++ [1]))).
Proof.
  apply (evaluators_without_groups stray_x stray_y stray_cens [2] 1 []
           ([] ++ [no_censored_warning])).
  - apply Forall_cons; [| apply Forall_nil].
    unfold valid_code. intros [H | [H | H]]; discriminate H.
  - reflexivity.
  - lra.
Defined.

Lemma tiny_rectangular : rectangular tiny_x.
Proof.
  unfold rectangular. cbn [data columns tiny_x].
  repeat (apply Forall_cons; [reflexivity |]). apply Forall_nil.
Qed.

Lemma one_rectangular : rectangular one_x.
Proof.
  unfold rectangular. cbn [data columns one_x].
  repeat (apply Forall_cons; [reflexivity |]). apply Forall_nil.
Qed.

Lemma objective_additive_witness :
  exists v1 v2 : R,
    tobit_neg_log_likelihood (fst (partitioned tiny_x tiny_y tiny_cens))
      (snd (partitioned tiny_x tiny_y tiny_cens)) ([2] ++ [1]) = inr v1
    /\ tobit_neg_log_likelihood (fst (partitioned one_x one_y one_cens))
         (snd (partitioned one_x one_y one_cens)) ([2] ++ [1]) = inr v2
    /\ tobit_neg_log_likelihood
         (fst (partitioned (frame_append tiny_x one_x) (series_append tiny_y one_y)
                           (tiny_cens ++ one_cens)))
         (snd (partitioned (frame_append tiny_x one_x) (series_append tiny_y one_y)
                           (tiny_cens ++ one_cens)))
         ([2] ++ [1]) = inr (v1 + v2).
Proof.
  apply (objective_additive tiny_x one_x tiny_y one_y tiny_cens one_cens [2] 1
           [] [] [no_censored_warning] []); first [reflexivity | lra].
Defined.

Lemma gradient_additive_witness :
  exists g1 g2 : list R,
    tobit_neg_log_likelihood_der (fst (partitioned tiny_x tiny_y tiny_cens))
      (snd (partitioned tiny_x tiny_y tiny_cens)) ([2] ++ [1]) = inr g1
    /\ tobit_neg_log_likelihood_der (fst (partitioned one_x one_y one_cens))
         (snd (partitioned one_x one_y one_cens)) ([2] ++ [1]) = inr g2
    /\ tobit_neg_log_likelihood_der
         (fst (partitioned (frame_append tiny_x one_x) (series_append tiny_y one_y)
                           (tiny_cens ++ one_cens)))
         (snd (partitioned (frame_append tiny_x one_x) (series_append tiny_y one_y)
                           (tiny_cens ++ one_cens)))
         ([2] ++ [1]) = inr (zip_with Rplus g1 g2).
Proof.
  apply (gradient_additive tiny_x one_x tiny_y one_y tiny_cens one_cens [2] 1
           [] [] [no_censored_warning] []);
    first [reflexivity | lra | apply tiny_rectangular | apply one_rectangular].
Defined.

Lemma evaluators_shift_invariant_witness :
  exists (value : R) (g : list R),
    tobit_neg_log_likelihood (fst (partitioned icpt_x icpt_y icpt_cens))
      (snd (partitioned icpt_x icpt_y icpt_cens)) ([1; 3] ++ [1]) = inr value
    /\ tobit_neg_log_likelihood
         (fst (partitioned icpt_x (shift_responses 5 icpt_y) icpt_cens))
         (snd (partitioned icpt_x (shift_responses 5 icpt_y) icpt_cens))
         (shift_intercept 5 [1; 3] ++ [1]) = inr value
    /\ tobit_neg_log_likelihood_der (fst (partitioned icpt_x icpt_y icpt_cens))
         (snd (partitioned icpt_x icpt_y icpt_cens)) ([1; 3] ++ [1]) = inr g
    /\ tobit_neg_log_likelihood_der
         (fst (partitioned icpt_x (shift_responses 5 icpt_y) icpt_cens))
         (snd (partitioned icpt_x (shift_responses 5 icpt_y) icpt_cens))
         (shift_intercept 5 [1; 3] ++ [1]) = inr g.
Proof.
  apply (evaluators_shift_invariant 5 icpt_x icpt_y icpt_cens [1; 3] 1 []
           [no_censored_warning] [no_censored_warning]); try reflexivity.
  - discriminate.
  - lra.
  - unfold rectangular. cbn [data columns icpt_x].
    apply Forall_cons; [reflexivity | apply Forall_nil].
  - unfold constant_first. cbn [data icpt_x].
    apply Forall_cons; [now exists [2] | apply Forall_nil].
Defined.

Lemma score_of_predictions_witness :
  score fitted new_x new_y (Some mean_absolute_error)
  = mean_absolute_error new_y (map (fun v => v - 1) [1 + (0 + 3 * 2)])
  /\ score fitted new_x new_y None
     = mean_absolute_error new_y (map (fun v => v - 1) [1 + (0 + 3 * 2)])
  /\ (1 = 0 -> score fitted new_x new_y (Some mean_absolute_error)
               = mean_absolute_error new_y [1 + (0 + 3 * 2)]).
Proof.
  apply (score_of_predictions fitted new_x new_y [1 + (0 + 3 * 2)] 1);
    reflexivity.
Defined.

(** The run of [fit] on [toy_x] returns. *)
Lemma toy_run_returns :
  fit toy_ext toy_x toy_y toy_cens false (mk_world (init true) [])
  = (inr tt, snd toy_run).
Proof.
  change (toy_run = (inr tt, snd toy_run)).
  rewrite (surjective_pairing toy_run) at 1. f_equal.
Qed.

Lemma fit_refuses_intercept_column_witness :
  fit toy_ext icpt_x icpt_y icpt_cens false (mk_world (init true) [])
  = (inl ValueError, mk_world (init true) []).
Proof.
  apply (@fit_refuses_intercept_column R R_numeric R_special);
    [reflexivity | left; reflexivity].
Defined.

Lemma fit_assigns_after_optimizer_witness :
  fit_intercept (self (mk_world (@init R true) [])) = true
  /\ exists b0 y_pred resid xs ys log1 result,
       lr_fit toy_ext (with_intercept toy_x) toy_y = inr b0
       /\ lr_predict toy_ext b0 (with_intercept toy_x) = inr y_pred
       /\ series_sub (svalues toy_y) y_pred = inr resid
       /\ split_left_right_censored (with_intercept toy_x) toy_y toy_cens
            (out (mk_world (@init R true) [])) = (inr (xs, ys), log1)
       /\ minimize toy_ext
            (fun params => tobit_neg_log_likelihood xs ys params)
            (fun params => tobit_neg_log_likelihood_der xs ys params)
            (b0 ++ [sqrtv (np_var resid)]) false = inr result.
Proof.
  apply (@fit_assigns_after_optimizer R R_numeric R_special toy_ext toy_x toy_y
           toy_cens false (mk_world (init true) []) (snd toy_run) (inr tt)).
  - apply toy_run_returns.
  - intros H. apply (f_equal (@coef_ R)) in H. lazy in H. discriminate H.
Defined.

Lemma fit_warm_start_witness :
  exists b0 y_pred resid xs ys log1 result,
    lr_fit toy_ext (with_intercept toy_x) toy_y = inr b0
    /\ lr_predict toy_ext b0 (with_intercept toy_x) = inr y_pred
    /\ series_sub (svalues toy_y) y_pred = inr resid
    /\ split_left_right_censored (with_intercept toy_x) toy_y toy_cens
         (out (mk_world (init true) [])) = (inr (xs, ys), log1)
    /\ minimize toy_ext (fun params => tobit_neg_log_likelihood xs ys params)
                        (fun params => tobit_neg_log_likelihood_der xs ys params)
                        (b0 ++ [sqrtv (np_var resid)]) false = inr result
    /\ ols_intercept (self (snd toy_run)) = nth_error b0 0
    /\ ols_coef_ (self (snd toy_run)) = Some (tl b0).
Proof.
  apply (@fit_warm_start R R_numeric R_special toy_ext toy_x toy_y toy_cens false
           (mk_world (init true) []) (snd toy_run));
    [reflexivity | apply toy_run_returns].
Defined.

Lemma report_rows_witness :
  exists (w' : world R) (est se : list R),
    fit toy_ext toy_x toy_y toy_cens false (mk_world (init true) []) = (inr tt, w')
    /\ report_column w' "coef" = Some est
    /\ report_column w' "std err" = Some se
    /\ length est = S (length (columns toy_x))
    /\ length se = S (length (columns toy_x))
    /\ report_column w' "z" = Some (zip_with div est se)
    /\ report_column w' "[0.025"
       = Some (zip_with (fun c e => sub c (mul c1_96 e)) est se)
    /\ report_column w' "0.975]"
       = Some (zip_with (fun c e => add c (mul c1_96 e)) est se).
Proof.
  eapply (@report_rows R R_numeric R_special toy_ext toy_x toy_y toy_cens false
            (mk_world (init true) [])).
  - reflexivity.
  - intros [H | []]. discriminate H.
  - reflexivity.
  - reflexivity.
  - reflexivity.
  - reflexivity.
  - reflexivity.
  - discriminate.
  - reflexivity.
  - reflexivity.
Defined.

Lemma report_p_values_witness :
  exists zs : list R,
    report_column (snd toy_run) "z" = Some zs
    /\ report_column (snd toy_run) "P>|z|"
       = Some (map (fun z => round4 (p_value z)) zs).
Proof.
  apply (@report_p_values R R_numeric R_special toy_ext toy_x toy_y toy_cens false
           (mk_world (init true) []) (snd toy_run));
    [reflexivity | apply toy_run_returns].
Defined.

Lemma report_sources_witness :
  exists (w' : world R) (x_1 se_0 : R),
    fit toy_ext toy_x toy_y toy_cens false (mk_world (init true) []) = (inr tt, w')
    /\ nth_error [2; 3; 1] 1 = Some x_1
    /\ nth_error
         (std_errors (mk_ndarray2 3 [[1; 0; 0]; [0; 1; 0]; [0; 0; 1]])) 0
       = Some se_0
    /\ report_column w' "coef" = Some (x_1 :: inner_slice [2; 3; 1])
    /\ report_column w' "std err"
       = Some (se_0 :: inner_slice
                 (std_errors (mk_ndarray2 3 [[1; 0; 0]; [0; 1; 0]; [0; 0; 1]]))).
Proof.
  eapply (@report_sources R R_numeric R_special toy_ext toy_x toy_y toy_cens false
            (mk_world (init true) []) _ _ _ _ _ _
            (mk_OptimizeResult [2; 3; 1] 0 1
               (mk_ndarray2 3 [[1; 0; 0]; [0; 1; 0]; [0; 0; 1]]))).
  - reflexivity.
  - intros [H | []]. discriminate H.
  - reflexivity.
  - reflexivity.
  - reflexivity.
  - reflexivity.
  - reflexivity.
  - discriminate.
  - reflexivity.
  - reflexivity.
Defined.

End MoreExamples.

